(** * pdf_qr_api: the QR stamping pipeline of [main.py]

    A shallow embedding of [main.py] (FastAPI endpoint, PDF validator, QR
    encoder and overlay compositor) and the properties of its sizing,
    placement, page assembly and error mapping.

    Python's [float] is IEEE 754 binary64; it is modelled by Rocq's primitive
    [float], whose operations are specified by the Standard Library against
    [SpecFloat] (52+1 bits of mantissa, exponents up to 1024).  Integers that
    the source mixes with floats ([100], [20], [2]) are the floats of the same
    value, which is what Python's arithmetic and comparisons make of them. *)

From Stdlib Require Import ZArith Bool List String Strings.Byte Lia.
From Stdlib Require Import Floats.
Import ListNotations.

Set Warnings "-inexact-float".

(** ** Binary64 rounding: definitions

    [SpecFloat] at precision 53: the exponent of the last bit, the number
    of bits of a mantissa, and the doubles of the source's constants. *)
Module Binary64.

Local Open Scope Z_scope.

Definition fexp (e : Z) : Z := SpecFloat.fexp prec emax e.

Definition digits (p : positive) : Z := Zpos (digits2_pos p).

(** What [binary_round_aux] builds from a mantissa and an exponent. *)
Definition pack (s : bool) (m e : Z) : spec_float :=
  match m with
  | Z0 => S754_zero s
  | Zpos p => if e <=? emax - prec then S754_finite s p e else S754_infinity s
  | Zneg _ => S754_nan
  end.

(** The record reached after [k] one-bit shifts of [P]: the quotient, and
    a round or sticky bit only when the shift dropped something. *)
Definition shifted (P k : Z) (r : shr_record) : Prop :=
  shr_m r = P / 2 ^ k /\
  (shr_r r || shr_s r = true -> shr_m r * 2 ^ k < P).

(** The doubles of the source's constants: [0.2] is
    [7205759403792794 * 2^-55], [100] is [7036874417766400 * 2^-46], and so
    on. *)
Definition b0_2 : spec_float := S754_finite false 7205759403792794 (-55).

Definition b100 : spec_float := S754_finite false 7036874417766400 (-46).

Definition b500 : spec_float := S754_finite false 8796093022208000 (-44).

Definition b2 : spec_float := S754_finite false 4503599627370496 (-51).

Definition b20 : spec_float := S754_finite false 5629499534213120 (-48).

Definition b22 : spec_float := S754_finite false 6192449487634432 (-48).

Definition b122 : spec_float := S754_finite false 8584986789675008 (-46).

(** Neither negative nor a negative zero: the sign bit is clear, or the
    value is not a number. *)
Definition sign_clear (x : spec_float) : bool :=
  match x with
  | S754_zero s | S754_infinity s | S754_finite s _ _ => negb s
  | S754_nan => true
  end.

End Binary64.

(** ** Python values and exceptions *)
Module Py.

Definition bytes : Type := list Byte.byte.

(** The exceptions of the program: FastAPI's [HTTPException], the
    [TypeError] of an unordered comparison, the [IndexError] of a sequence,
    the QR library's [DataOverflowError], and whatever else a library
    raises.  All of them derive from [Exception]. *)
Inductive exn : Type :=
| HTTPException (status_code : Z) (detail : string)
| TypeError (msg : string)
| IndexError (msg : string)
| DataOverflowError
| LibraryError (msg : string).

Inductive result (A : Type) : Type :=
| Ok (a : A)
| Raise (e : exn).
Arguments Ok {A} a.
Arguments Raise {A} e.

Definition bind {A B : Type} (m : result A) (k : A -> result B) : result B :=
  match m with
  | Ok a => k a
  | Raise e => Raise e
  end.

(** [try: body except Exception as e: handler e] *)
Definition try_except {A : Type} (body : result A) (handler : exn -> result A)
  : result A :=
  match body with
  | Ok a => Ok a
  | Raise e => handler e
  end.

(** [except Exception as e: logger.error(...); raise]: logging has no effect
    on the result, the exception goes on. *)
Definition log_and_reraise {A : Type} (e : exn) : result A := Raise e.

(** A number as the arithmetic of [add_qr_to_pdf] can produce it: a float,
    or the complex number that [**] returns on a negative base. *)
Inductive number : Type :=
| PyFloat (f : float)
| PyComplex.

(** Two-argument [min] and [max]: the first argument stays unless the
    second compares strictly below (above) it. *)
Definition py_min (a b : float) : float := if (b <? a)%float then b else a.
Definition py_max (a b : float) : float := if (a <? b)%float then b else a.

(** [min] on numbers: [<] is not defined on complex numbers. *)
Definition number_min (a b : number) : result float :=
  match a, b with
  | PyFloat x, PyFloat y => Ok (py_min x y)
  | _, _ => Raise (TypeError "'<' not supported between instances of 'float' and 'complex'")
  end.

Definition number_mul (a : number) (b : float) : number :=
  match a with
  | PyFloat x => PyFloat (x * b)%float
  | PyComplex => PyComplex
  end.

(** [v ** w] for a finite, positive exponent [w] that is not an integer
    (the source's [0.3]): not-a-number stays, an infinity or a zero loses
    its sign, a negative base gives a complex number, and the C library's
    [pow] does the rest. *)
Definition float_pow (libm_pow : float -> float -> float) (v w : float) : number :=
  if is_nan v then PyFloat v
  else if is_infinity v then PyFloat (abs v)
  else if is_zero v then PyFloat zero
  else if (v <? 0)%float then PyComplex
  else PyFloat (libm_pow v w).

End Py.

Declare Scope py_scope.
Delimit Scope py_scope with py.
Notation "x <- m ;; k" := (Py.bind m (fun x => k))
  (at level 61, m at next level, right associativity) : py_scope.
Notation "' pat <- m ;; k" := (Py.bind m (fun x => match x with pat => k end))
  (at level 61, pat pattern, m at next level, right associativity) : py_scope.
(** ** The libraries the program calls *)

Import Py.
Local Open Scope py_scope.
Local Open Scope string_scope.

(** *** PyPDF2: a reader's [pages] is a lazy sequence; taking its length and
    fetching a page can each fail on a damaged file. *)
Record Reader (Page : Type) : Type := {
  num_pages : result nat;
  get_page : nat -> result Page
}.
Arguments num_pages {Page} r.
Arguments get_page {Page} r i.

Fixpoint map_result {A B : Type} (f : A -> result B) (l : list A) : result (list B) :=
  match l with
  | [] => Ok []
  | a :: l' => b <- f a ;; bs <- map_result f l' ;; Ok (b :: bs)
  end.

(** [len(reader.pages)] *)
Definition pages_len {Page} (r : Reader Page) : result nat := num_pages r.

(** [reader.pages[i]] for [i >= 0] *)
Definition pages_getitem {Page} (r : Reader Page) (i : nat) : result Page :=
  n <- num_pages r ;;
  if (i <? n)%nat then get_page r i
  else Raise (IndexError "sequence index out of range").

(** [reader.pages[start:]], walked by a [for] loop *)
Definition pages_from {Page} (r : Reader Page) (start : nat) : result (list Page) :=
  n <- num_pages r ;;
  map_result (get_page r) (seq start (n - start)).

(** *** qrcode *)
Inductive error_correction : Type :=
| ERROR_CORRECT_L | ERROR_CORRECT_M | ERROR_CORRECT_Q | ERROR_CORRECT_H.

Inductive image_factory : Type :=
| PilImage | SvgImage | SvgFragmentImage | SvgPathImage.

Record QRCode : Type := {
  version : nat;
  error_correction_level : error_correction;
  box_size : Z;
  border : Z;
  data_list : list string
}.

Definition add_data (qr : QRCode) (data : string) : QRCode :=
  {| version := version qr;
     error_correction_level := error_correction_level qr;
     box_size := box_size qr;
     border := border qr;
     data_list := (data_list qr ++ [data])%list |}.

Definition with_version (qr : QRCode) (v : nat) : QRCode :=
  {| version := v;
     error_correction_level := error_correction_level qr;
     box_size := box_size qr;
     border := border qr;
     data_list := data_list qr |}.

(** Modelled from the spec: the QR library's version selection, which is
    not part of this repository.  "Fit" semantics pick the smallest symbol
    version, from the configured one up to 40, that holds the data at the
    chosen error-correction level ([holds] stands for the library's
    capacity table). *)
Fixpoint best_fit (holds : nat -> bool) (fuel start : nat) : option nat :=
  match fuel with
  | O => None
  | S fuel' => if holds start then Some start else best_fit holds fuel' (S start)
  end.

(** Modelled from the spec: the QR library's [make(fit=...)].  Text that
    exceeds the capacity of every version is an encoding failure
    ([DataOverflowError]), never a truncation. *)
Definition make (holds : nat -> error_correction -> list string -> bool)
    (qr : QRCode) (fit : bool) : result QRCode :=
  let fits v := holds v (error_correction_level qr) (data_list qr) in
  if fit then
    match best_fit fits (41 - version qr) (version qr) with
    | Some v => Ok (with_version qr v)
    | None => Raise DataOverflowError
    end
  else if fits (version qr) then Ok qr else Raise DataOverflowError.

(** *** reportlab: the calls made on a canvas, in order *)
Inductive canvas_op (Drawing : Type) : Type :=
| SetFillColorRGB (r g b : float)
| Rect (x y width height : float) (fill stroke : Z)
| RenderDraw (drawing : Drawing) (x y : float).
Arguments SetFillColorRGB {Drawing} r g b.
Arguments Rect {Drawing} x y width height fill stroke.
Arguments RenderDraw {Drawing} drawing x y.

Record Canvas (Drawing : Type) : Type := {
  pagesize : float * float;
  ops : list (canvas_op Drawing)
}.
Arguments pagesize {Drawing} c.
Arguments ops {Drawing} c.

(** *** The collaborators, as one interface *)
Record Libraries : Type := {
  (** C's [pow], behind Python's [**] *)
  libm_pow : float -> float -> float;
  (** [magic.from_buffer(chunk, mime=True)] *)
  magic_from_buffer : bytes -> result string;
  (** PyPDF2 *)
  Page : Type;
  PdfReader : bytes -> option bool -> result (Reader Page);
  mediabox_width : Page -> result float;
  mediabox_height : Page -> result float;
  merge_page : Page -> Page -> result Page;
  PdfWriter_write : list Page -> result bytes;
  (** qrcode: the capacity table, and [make_image] followed by [save] *)
  holds : nat -> error_correction -> list string -> bool;
  make_image : image_factory -> QRCode -> result bytes;
  (** svglib and reportlab *)
  Drawing : Type;
  svg2rlg : bytes -> result Drawing;
  canvas_save : Canvas Drawing -> result bytes;
  (** [str(e)] *)
  exn_str : exn -> string;
  (** Starlette's [init_headers], run by the constructor of a response: it
      encodes the names and values of the headers as latin-1, and raises on
      a character outside Latin-1 *)
  init_headers : list (string * string) -> result unit
}.

(** ** The program: [main.py] *)

(** [generate_qr_code_svg(content)] *)
Definition generate_qr_code_svg (L : Libraries) (content : string) : result bytes :=
  try_except
    (let qr := {| version := 1;
                  error_correction_level := ERROR_CORRECT_L;
                  box_size := 10;
                  border := 4;
                  data_list := [] |} in
     let qr := add_data qr content in
     qr <- make (holds L) qr true ;;
     let factory := SvgPathImage in
     make_image L factory qr)
    log_and_reraise.

(** [validate_pdf(pdf_bytes)] *)
Definition validate_pdf (L : Libraries) (pdf_bytes : bytes) : result bool :=
  try_except
    (reader <- PdfReader L pdf_bytes (Some false) ;;
     n <- pages_len reader ;;
     if (n =? 0)%nat then Ok false
     else
       _ <- pages_getitem reader 0 ;;
       Ok true)
    (fun _ => Ok false).

(** The adaptive size of [add_qr_to_pdf]. *)
Definition qr_size (pow : float -> float -> float) (page_width page_height : float)
  : result float :=
  let min_qr_size := 100%float in
  let max_qr_size := (py_min page_width page_height * 0.2)%float in
  let target_size :=
    number_mul (float_pow pow (page_width * page_height)%float 0.3%float) 0.1%float in
  clamped <- number_min target_size (PyFloat max_qr_size) ;;
  Ok (py_max min_qr_size clamped).

Definition margin : float := 20%float.
Definition padding : float := 2%float.

(** The overlay canvas of [add_qr_to_pdf]: size, position, white background,
    then the QR drawing. *)
Definition overlay_canvas (L : Libraries) (drawing : Drawing L)
    (page_width page_height : float) : result (Canvas (Drawing L)) :=
  qr_size <- qr_size (libm_pow L) page_width page_height ;;
  let x := (page_width - qr_size - margin - padding)%float in
  let y := (page_height - qr_size - margin - padding)%float in
  Ok {| pagesize := (page_width, page_height);
        ops := [ SetFillColorRGB 1 1 1;
                 Rect (x - padding) (y - padding)
                      (qr_size + 2 * padding) (qr_size + 2 * padding) 1 0;
                 RenderDraw drawing x y ] |}%float.

(** The pages [add_qr_to_pdf] hands to its writer. *)
Definition add_qr_to_pdf_pages (L : Libraries) (pdf_bytes : bytes) (qr_content : string)
  : result (list (Page L)) :=
  valid <- validate_pdf L pdf_bytes ;;
  if negb valid then Raise (HTTPException 400 "Invalid or corrupted PDF file")
  else
    reader <- PdfReader L pdf_bytes (Some false) ;;
    n <- pages_len reader ;;
    if (n =? 0)%nat then Raise (HTTPException 400 "PDF file is empty")
    else
      first_page <- pages_getitem reader 0 ;;
      page_width <- mediabox_width L first_page ;;
      page_height <- mediabox_height L first_page ;;
      qr_svg <- generate_qr_code_svg L qr_content ;;
      drawing <- svg2rlg L qr_svg ;;
      can <- overlay_canvas L drawing page_width page_height ;;
      packet <- canvas_save L can ;;
      qr_pdf <- PdfReader L packet None ;;
      overlay <- pages_getitem qr_pdf 0 ;;
      first_page <- merge_page L first_page overlay ;;
      rest <- pages_from reader 1 ;;
      Ok (first_page :: rest).

(** [add_qr_to_pdf(pdf_bytes, qr_content)] *)
Definition add_qr_to_pdf (L : Libraries) (pdf_bytes : bytes) (qr_content : string)
  : result bytes :=
  try_except
    (pages <- add_qr_to_pdf_pages L pdf_bytes qr_content ;;
     PdfWriter_write L pages)
    log_and_reraise.

(** *** The endpoint *)
Record UploadFile : Type := {
  filename : string;
  file : bytes;
  position : nat
}.

(** [await pdf_file.read(size)]; [None] reads to the end. *)
Definition upload_read (f : UploadFile) (size : option nat) : bytes * UploadFile :=
  let available := skipn (position f) (file f) in
  let chunk := match size with
               | Some n => firstn n available
               | None => available
               end in
  (chunk, {| filename := filename f; file := file f;
             position := position f + List.length chunk |}).

(** [await pdf_file.seek(offset)] *)
Definition upload_seek (f : UploadFile) (offset : nat) : UploadFile :=
  {| filename := filename f; file := file f; position := offset |}.

Record StreamingResponse : Type := {
  body : bytes;
  media_type : string;
  headers : list (string * string)
}.

(** [StreamingResponse(io.BytesIO(content), media_type=..., headers=...)]:
    the constructor keeps its arguments and encodes the headers. *)
Definition new_StreamingResponse (L : Libraries) (content : bytes)
    (media_type : string) (headers : list (string * string))
  : result StreamingResponse :=
  _ <- init_headers L headers ;;
  Ok {| body := content; media_type := media_type; headers := headers |}.

(** The buffer the endpoint builds after the mime check. *)
Definition read_complete_file (first_chunk : bytes) (pdf_file : UploadFile) : bytes :=
  let pdf_file := upload_seek pdf_file 0 in
  let '(rest, _) := upload_read pdf_file None in
  (first_chunk ++ rest)%list.

(** The buffer that reaches [add_qr_to_pdf] for an upload. *)
Definition pdf_bytes_of_upload (pdf_file : UploadFile) : bytes :=
  let '(first_chunk, pdf_file) := upload_read pdf_file (Some 2048%nat) in
  read_complete_file first_chunk pdf_file.

(** [add_qr_to_pdf_endpoint(pdf_file, qr_content)] *)
Definition add_qr_to_pdf_endpoint (L : Libraries) (pdf_file : UploadFile)
    (qr_content : string) : result StreamingResponse :=
  try_except
    (let '(first_chunk, pdf_file') := upload_read pdf_file (Some 2048%nat) in
     content_type <- magic_from_buffer L first_chunk ;;
     if negb (content_type =? "application/pdf") then
       Raise (HTTPException 400 "Uploaded file is not a PDF")
     else
       let pdf_bytes := read_complete_file first_chunk pdf_file' in
       result_bytes <- add_qr_to_pdf L pdf_bytes qr_content ;;
       new_StreamingResponse L result_bytes "application/pdf"
         [("Content-Disposition",
           "attachment; filename=modified_" ++ filename pdf_file)])
    (fun e => Raise (HTTPException 500 (exn_str L e))).

(** The status the framework answers with: an [HTTPException] carries its
    own, a response is a 200. *)
Definition status_of (r : result StreamingResponse) : Z :=
  match r with
  | Ok _ => 200
  | Raise (HTTPException status_code _) => status_code
  | Raise _ => 500
  end.

(** ** A small world to run the program in

    Stand-ins for the libraries, simple enough to evaluate: a "PDF" is the
    header [%PDF] followed by one digit per page, a page of digit [d] being
    a square of side [100 * d] points. *)
Module Demo.

Import Py.
Local Open Scope string_scope.

(** [x ** 0.3] as the tenth root of [x^3], by Newton's iteration from
    above. *)
Fixpoint tenth_root (fuel : nat) (a y : float) : float :=
  match fuel with
  | O => y
  | S fuel' =>
      let y3 := (y * y * y)%float in
      let y9 := (y3 * y3 * y3)%float in
      let y' := (0.9 * y + a / (10 * y9))%float in
      if (y' <? y)%float then tenth_root fuel' a y' else y
  end.

Definition pow_0_3 (v w : float) : float :=
  let a := (v * v * v)%float in
  tenth_root 4000 a (if (a <? 1)%float then 1%float else a).

Record page : Type := {
  width : float;
  height : float;
  content : list string
}.

Definition header : bytes := ["%"; "P"; "D"; "F"]%byte.

Fixpoint strip_prefix (p l : bytes) : option bytes :=
  match p, l with
  | [], _ => Some l
  | a :: p', b :: l' => if Byte.eqb a b then strip_prefix p' l' else None
  | _ :: _, [] => None
  end.

Definition side_of_digit (b : Byte.byte) : option float :=
  match b with
  | "1"%byte => Some 100%float
  | "2"%byte => Some 200%float
  | "3"%byte => Some 300%float
  | "4"%byte => Some 400%float
  | "5"%byte => Some 500%float
  | "6"%byte => Some 600%float
  | "7"%byte => Some 700%float
  | "8"%byte => Some 800%float
  | "9"%byte => Some 900%float
  | _ => None
  end.

Fixpoint parse_pages (l : bytes) : option (list page) :=
  match l with
  | [] => Some []
  | b :: l' =>
      match side_of_digit b, parse_pages l' with
      | Some s, Some ps => Some ({| width := s; height := s; content := ["page"] |} :: ps)
      | _, _ => None
      end
  end.

Definition reader_of (ps : list page) : Reader page :=
  {| num_pages := Ok (List.length ps);
     get_page := fun i =>
       match nth_error ps i with
       | Some p => Ok p
       | None => Raise (LibraryError "no such page")
       end |}.

Definition parse (stream : bytes) (strict : option bool) : result (Reader page) :=
  match strip_prefix header stream with
  | None => Raise (LibraryError "EOF marker not found")
  | Some rest =>
      match parse_pages rest with
      | Some ps => Ok (reader_of ps)
      | None => Raise (LibraryError "Could not read malformed PDF file")
      end
  end.

Definition sniff (chunk : bytes) : result string :=
  match strip_prefix header chunk with
  | Some _ => Ok "application/pdf"
  | None => Ok "application/octet-stream"
  end.

Definition merge (p overlay : page) : result page :=
  Ok {| width := width p; height := height p;
        content := (content p ++ content overlay)%list |}.

Definition write (ps : list page) : result bytes :=
  Ok (header ++ map (fun _ => "1"%byte) ps)%list.

(** A symbol of version [v] holds [17 * v] characters. *)
Definition capacity (v : nat) (ec : error_correction) (data : list string) : bool :=
  (list_sum (map String.length data) <=? 17 * v)%nat.

Definition render (factory : image_factory) (qr : QRCode) : result bytes :=
  Ok ["<"; "s"; "v"; "g"; "/"; ">"]%byte.

Definition describe (e : exn) : string :=
  match e with
  | HTTPException _ detail => detail
  | TypeError msg | IndexError msg | LibraryError msg => msg
  | DataOverflowError => ""
  end.

Definition libraries : Libraries :=
  {| libm_pow := pow_0_3;
     magic_from_buffer := sniff;
     Page := page;
     PdfReader := parse;
     mediabox_width := fun p => Ok (width p);
     mediabox_height := fun p => Ok (height p);
     merge_page := merge;
     PdfWriter_write := write;
     holds := capacity;
     make_image := render;
     Drawing := bytes;
     svg2rlg := fun svg => Ok svg;
     canvas_save := fun _ => Ok (header ++ ["1"%byte])%list;
     exn_str := describe;
     init_headers := fun _ => Ok tt |}.

End Demo.

(** ** Libraries that raise no HTTP exception

    [HTTPException] belongs to the web framework: the PDF, QR and drawing
    libraries raise errors of their own. *)
Definition library_error (e : Py.exn) : Prop :=
  match e with
  | Py.HTTPException _ _ => False
  | _ => True
  end.

Definition raises_library_errors {A : Type} (r : Py.result A) : Prop :=
  forall e, r = Py.Raise e -> library_error e.

Definition quiet (L : Libraries) : Prop :=
  (forall stream strict, raises_library_errors (PdfReader L stream strict)) /\
  (forall stream strict reader,
      PdfReader L stream strict = Py.Ok reader ->
      raises_library_errors (num_pages reader) /\
      forall i, raises_library_errors (get_page reader i)) /\
  (forall p, raises_library_errors (mediabox_width L p)) /\
  (forall p, raises_library_errors (mediabox_height L p)) /\
  (forall p overlay, raises_library_errors (merge_page L p overlay)) /\
  (forall pages, raises_library_errors (PdfWriter_write L pages)) /\
  (forall factory qr, raises_library_errors (make_image L factory qr)) /\
  (forall svg, raises_library_errors (svg2rlg L svg)) /\
  (forall can, raises_library_errors (canvas_save L can)).

(** The small world with a QR library that holds nothing. *)
Definition cramped : Libraries :=
  {| libm_pow := libm_pow Demo.libraries;
     magic_from_buffer := magic_from_buffer Demo.libraries;
     Page := Demo.page;
     PdfReader := Demo.parse;
     mediabox_width := fun p => Py.Ok (Demo.width p);
     mediabox_height := fun p => Py.Ok (Demo.height p);
     merge_page := Demo.merge;
     PdfWriter_write := Demo.write;
     holds := fun _ _ _ => false;
     make_image := Demo.render;
     Drawing := Py.bytes;
     svg2rlg := fun svg => Py.Ok svg;
     canvas_save := fun _ => Py.Ok (Demo.header ++ ["1"%byte])%list;
     exn_str := Demo.describe;
     init_headers := fun _ => Py.Ok tt |}.

(** ** Binary64 rounding: facts

    Facts about [SpecFloat]'s rounding function at precision 53, stated on
    integer mantissas and exponents. *)
Module Binary64Facts.

Import Binary64.
Local Open Scope Z_scope.

Lemma fexp_eq e : fexp e = Z.max (e - 53) (-1074).
Proof. reflexivity. Qed.

Lemma digits_log2 p : digits p = Z.log2 (Zpos p) + 1.
Proof.
  unfold digits.
  assert (E : digits2_pos p = Pos.size p) by (induction p; simpl; congruence).
  rewrite E. destruct p; simpl; lia.
Qed.

Lemma digits_pos p : 1 <= digits p.
Proof. unfold digits. lia. Qed.

Lemma digits_bounds p : 2 ^ (digits p - 1) <= Zpos p < 2 ^ digits p.
Proof.
  rewrite digits_log2.
  replace (Z.log2 (Zpos p) + 1 - 1) with (Z.log2 (Zpos p)) by lia.
  pose proof (Z.log2_spec (Zpos p) ltac:(lia)). unfold Z.succ in *. lia.
Qed.

Lemma digits_gt p a : 0 <= a -> 2 ^ a <= Zpos p -> a < digits p.
Proof.
  intros Ha H. destruct (Z_lt_le_dec a (digits p)) as [|L]; [assumption|].
  pose proof (digits_bounds p) as [_ U].
  pose proof (Z.pow_le_mono_r 2 (digits p) a ltac:(lia) L). lia.
Qed.

Lemma digits_le p b : Zpos p < 2 ^ b -> digits p <= b.
Proof.
  intros H. destruct (Z_lt_le_dec b (digits p)) as [L|]; [|assumption].
  pose proof (digits_bounds p) as [Lo _]. pose proof (digits_pos p).
  destruct (Z_lt_le_dec b 0) as [N|N].
  - rewrite Z.pow_neg_r in H by assumption. lia.
  - pose proof (Z.pow_le_mono_r 2 b (digits p - 1) ltac:(lia) ltac:(lia)). lia.
Qed.

(** *** Right shifts *)

Lemma iter_pos_nat {A} (f : A -> A) (n : positive) (x : A) :
  iter_pos f n x = Nat.iter (Pos.to_nat n) f x.
Proof.
  revert x. induction n as [n IH|n IH|]; intros x; cbn [iter_pos].
  - rewrite !IH, Pos2Nat.inj_xI, <- Nat.iter_succ_r.
    replace (S (2 * Pos.to_nat n))%nat with (Pos.to_nat n + S (Pos.to_nat n))%nat by lia.
    now rewrite Nat.iter_add.
  - rewrite !IH, Pos2Nat.inj_xO.
    replace (2 * Pos.to_nat n)%nat with (Pos.to_nat n + Pos.to_nat n)%nat by lia.
    now rewrite Nat.iter_add.
  - reflexivity.
Qed.

Lemma shr_1_spec (r : shr_record) :
  0 <= shr_m r ->
  shr_1 r = {| shr_m := shr_m r / 2; shr_r := Z.odd (shr_m r);
               shr_s := shr_r r || shr_s r |}.
Proof.
  destruct r as [m r s]. cbn [shr_m shr_r shr_s]. intros Hm.
  rewrite <- Z.div2_div.
  destruct m as [|[p|p|]|p]; try reflexivity; lia.
Qed.

Lemma shifted_iter (P : Z) (n : nat) :
  0 <= P ->
  shifted P (Z.of_nat n)
    (Nat.iter n shr_1 {| shr_m := P; shr_r := false; shr_s := false |}).
Proof.
  intros HP. induction n as [|n [Hm Hf]].
  - split; cbn.
    + now rewrite Z.div_1_r.
    + discriminate.
  - rewrite Nat2Z.inj_succ, Nat.iter_succ. unfold Z.succ, shifted.
    set (r := Nat.iter n shr_1 _) in *.
    assert (Hk : 0 < 2 ^ Z.of_nat n) by (apply Z.pow_pos_nonneg; lia).
    assert (H0 : 0 <= shr_m r) by (rewrite Hm; apply Z.div_pos; lia).
    rewrite shr_1_spec by assumption.
    rewrite Z.pow_add_r, Z.pow_1_r by lia.
    pose proof (Z.mul_div_le P _ Hk) as Hle. rewrite <- Hm, Z.mul_comm in Hle.
    pose proof (Z.div_mod (shr_m r) 2 ltac:(lia)) as Hdm.
    pose proof (Zmod_odd (shr_m r)) as Hodd.
    split; cbn [shr_m shr_r shr_s].
    + rewrite Hm, Z.div_div by lia. reflexivity.
    + intros Hb. destruct (Z.odd (shr_m r)).
      * nia.
      * cbn in Hb. specialize (Hf Hb). nia.
Qed.

Lemma shr_spec (P e n : Z) :
  0 <= P ->
  exists r,
    shr {| shr_m := P; shr_r := false; shr_s := false |} e n
      = (r, e + Z.max n 0) /\
    shifted P (Z.max n 0) r.
Proof.
  intros HP. destruct n as [|p|p]; cbn [shr].
  - eexists; split; [rewrite Z.add_0_r; reflexivity|].
    exact (shifted_iter P 0 HP).
  - eexists; split; [replace (Z.max (Zpos p) 0) with (Zpos p) by lia; reflexivity|].
    rewrite iter_pos_nat. replace (Z.max (Zpos p) 0) with (Z.of_nat (Pos.to_nat p)) by lia.
    exact (shifted_iter P _ HP).
  - eexists; split; [rewrite Z.add_0_r; reflexivity|].
    exact (shifted_iter P 0 HP).
Qed.

Lemma round_nearest_even_spec (r : shr_record) :
  let m1 := round_nearest_even (shr_m r) (loc_of_shr_record r) in
  shr_m r <= m1 <= shr_m r + 1 /\
  (m1 = shr_m r + 1 -> shr_r r || shr_s r = true).
Proof.
  destruct r as [m [|] [|]]; cbn; try destruct (Z.even m); split; try lia; auto; lia.
Qed.

(** *** The rounding function

    Rounding [P * 2^e] shifts [P] right by [n] bits, down to 53 bits or to
    the smallest exponent, moves to the next mantissa or stays (to nearest,
    ties to even), and renormalises when the mantissa reaches [2^53]. *)

Lemma Zdigits2_range (m b : Z) :
  0 <= m < 2 ^ b -> 0 <= Zdigits2 m <= b.
Proof.
  intros [L U]. destruct m as [|q|q]; cbn [Zdigits2]; try lia.
  - destruct (Z_lt_le_dec b 0) as [N|N]; [|lia].
    rewrite Z.pow_neg_r in U by assumption. lia.
  - pose proof (digits_le q b U). pose proof (digits_pos q).
    unfold digits in *. lia.
Qed.

Lemma binary_round_aux_spec (s : bool) (P : positive) (e : Z) :
  let n := Z.max (fexp (digits P + e) - e) 0 in
  let m' := Zpos P / 2 ^ n in
  exists m1,
    m' <= m1 <= m' + 1 /\
    (m1 = m' + 1 -> m' * 2 ^ n < Zpos P) /\
    m1 <= 2 ^ 53 /\
    binary_round_aux prec emax s (Zpos P) e loc_Exact
      = if m1 <? 2 ^ 53 then pack s m1 (e + n) else pack s (2 ^ 52) (e + n + 1).
Proof.
  intros n m'. unfold binary_round_aux, shr_fexp.
  cbn [shr_record_of_loc]. change (Zdigits2 (Zpos P)) with (digits P).
  change (SpecFloat.fexp prec emax) with fexp.
  destruct (shr_spec (Zpos P) e (fexp (digits P + e) - e) ltac:(lia))
    as (r & Hr & Hm & Hf).
  fold n in Hr, Hm, Hf. rewrite Hr. fold m' in Hm.
  destruct (round_nearest_even_spec r) as [Hb Hup]. cbv zeta in Hb, Hup.
  set (m1 := round_nearest_even (shr_m r) (loc_of_shr_record r)) in *.
  rewrite Hm in Hb, Hup, Hf.
  assert (Hn : 0 <= n) by lia.
  assert (Hpn : 0 < 2 ^ n) by (apply Z.pow_pos_nonneg; lia).
  assert (Hm0 : 0 <= m') by (apply Z.div_pos; lia).
  assert (Hm53 : m' < 2 ^ 53).
  { apply Z.div_lt_upper_bound; [assumption|].
    rewrite <- Z.pow_add_r by lia.
    pose proof (digits_bounds P) as [_ U].
    assert (Hd : digits P <= n + 53) by (subst n; rewrite fexp_eq; lia).
    pose proof (Z.pow_le_mono_r 2 _ _ ltac:(lia) Hd). lia. }
  assert (He : -1074 <= e + n) by (subst n; rewrite fexp_eq; lia).
  exists m1. repeat split; try lia.
  { intros E. apply Hf, Hup, E. }
  destruct (shr_spec m1 (e + n) (fexp (Zdigits2 m1 + (e + n)) - (e + n)) ltac:(lia))
    as (r2 & Hr2 & Hm2 & _).
  rewrite Hr2.
  destruct (Z.ltb_spec m1 (2 ^ 53)) as [Lt|Ge].
  - pose proof (Zdigits2_range m1 53 ltac:(lia)) as Hd.
    replace (Z.max (fexp (Zdigits2 m1 + (e + n)) - (e + n)) 0) with 0 in *
      by (rewrite fexp_eq; lia).
    rewrite Z.pow_0_r, Z.div_1_r in Hm2. rewrite Hm2, Z.add_0_r.
    unfold pack. destruct m1; try reflexivity; lia.
  - assert (E : m1 = 2 ^ 53) by lia. rewrite E in *.
    change (Zdigits2 (2 ^ 53)) with 54 in *.
    replace (Z.max (fexp (54 + (e + n)) - (e + n)) 0) with 1 in *
      by (rewrite fexp_eq; lia).
    change (2 ^ 53 / 2 ^ 1) with (2 ^ 52) in Hm2. rewrite Hm2.
    reflexivity.
Qed.

(** *** Validity and comparisons *)

Lemma valid_finite (s : bool) (m : positive) (e : Z) :
  valid_binary (S754_finite s m e) = true ->
  Z.max (digits m + e - 53) (-1074) = e /\ e <= 971 /\ Zpos m < 2 ^ 53.
Proof.
  cbn [SpecFloat.valid_binary]. unfold bounded, canonical_mantissa.
  rewrite andb_true_iff, Z.eqb_eq, Z.leb_le.
  change (SpecFloat.fexp prec emax) with fexp. rewrite fexp_eq.
  change (Zpos (digits2_pos m)) with (digits m). change (emax - prec) with 971.
  intros [C B]. repeat split; try assumption.
  pose proof (digits_bounds m) as [_ U].
  pose proof (Z.pow_le_mono_r 2 (digits m) 53 ltac:(lia) ltac:(lia)). lia.
Qed.

Lemma valid_normal (s : bool) (m : positive) (e : Z) :
  valid_binary (S754_finite s m e) = true -> -1074 < e ->
  2 ^ 52 <= Zpos m < 2 ^ 53.
Proof.
  intros V He. destruct (valid_finite _ _ _ V) as (C & _ & U).
  assert (D : digits m = 53) by lia.
  pose proof (digits_bounds m) as [L _]. rewrite D in L. split; [exact L|exact U].
Qed.

Lemma Pos_compare_cont_Eq (p q : positive) :
  Pos.compare_cont Eq p q = (Zpos p ?= Zpos q).
Proof. reflexivity. Qed.

Lemma SFleb_finite_pack (K : positive) (EK m E : Z) :
  0 < m -> EK < E \/ (E = EK /\ Zpos K <= m) ->
  SFleb (S754_finite false K EK) (pack false m E) = true.
Proof.
  intros Hm H. destruct m as [|q|q]; try lia. unfold pack.
  destruct (E <=? emax - prec); [|reflexivity].
  unfold SFleb, SFcompare. rewrite Pos_compare_cont_Eq.
  destruct (Z.compare_spec EK E) as [->|L|G]; try reflexivity; try lia.
  destruct (Z.compare_spec (Zpos K) (Zpos q)); try reflexivity; lia.
Qed.

Lemma SFleb_pack_finite (s : bool) (K : positive) (EK m E : Z) :
  0 <= m -> EK <= 971 ->
  s = true \/ E < EK \/ (E = EK /\ m <= Zpos K) ->
  SFleb (pack s m E) (S754_finite false K EK) = true.
Proof.
  intros Hm HK H. destruct m as [|q|q]; try lia; unfold pack.
  - reflexivity.
  - destruct s.
    + destruct (E <=? emax - prec); reflexivity.
    + destruct H as [H|H]; [discriminate|].
      change (emax - prec) with 971.
      destruct (Z.leb_spec E 971); [|lia].
      unfold SFleb, SFcompare. rewrite Pos_compare_cont_Eq.
      destruct (Z.compare_spec E EK) as [->|L|G]; try reflexivity; try lia.
      destruct (Z.compare_spec (Zpos q) (Zpos K)); try reflexivity; lia.
Qed.

(** *** Scaling by 0.2 around 500

    The product of a double by [0.2] is rounded once; the rounding does
    not take a product of at least 100 below 100, nor one below 100 above
    it. *)

Lemma mul_0_2_ge_100 (x : spec_float) :
  valid_binary x = true ->
  SFleb b500 x = true ->
  SFleb b100 (SF64mul x b0_2) = true.
Proof.
  intros V H. destruct x as [s|[|]| |[|] mx ex]; try discriminate H; try reflexivity.
  destruct (valid_finite _ _ _ V) as (C & B & _).
  assert (Hge : -44 < ex \/ (ex = -44 /\ 8796093022208000 <= Zpos mx)).
  { unfold SFleb, b500, SFcompare in H. rewrite Pos_compare_cont_Eq in H.
    destruct (Z.compare_spec (-44) ex) as [E|L|G]; try discriminate H; try lia.
    destruct (Z.compare_spec 8796093022208000 (Zpos mx)); try discriminate H; lia. }
  pose proof (valid_normal _ _ _ V ltac:(lia)) as [Lm Um].
  unfold SF64mul, b0_2, SFmul. cbn [xorb].
  destruct (binary_round_aux_spec false (mx * 7205759403792794) (ex + -55))
    as (m1 & Hb & _ & _ & ->).
  set (P := (mx * 7205759403792794)%positive) in *.
  assert (HP : Zpos P = Zpos mx * 7205759403792794) by reflexivity.
  pose proof (digits_gt P 104 ltac:(lia) ltac:(lia)) as D1.
  pose proof (digits_le P 106 ltac:(lia)) as D2.
  rewrite fexp_eq in Hb |- *.
  assert (Hd : digits P = 105 \/ (digits P = 106 /\ 2 ^ 105 <= Zpos P)).
  { destruct (Z.eq_dec (digits P) 105); [left; assumption|right].
    split; [lia|]. pose proof (digits_bounds P) as [L _].
    replace (digits P) with 106 in L by lia. exact L. }
  assert (Hex : ex = -44 -> digits P = 106).
  { intros ->. pose proof (digits_gt P 105 ltac:(lia) ltac:(lia)). lia. }
  destruct Hd as [Hd|[Hd HL]]; rewrite Hd in *.
  - replace (Z.max (Z.max (105 + (ex + -55) - 53) (-1074) - (ex + -55)) 0)
      with 52 in * by lia.
    assert (Hm : 7205759403792794 <= Zpos P / 2 ^ 52)
      by (apply Z.div_le_lower_bound; lia).
    destruct (m1 <? 2 ^ 53); apply SFleb_finite_pack; lia.
  - replace (Z.max (Z.max (106 + (ex + -55) - 53) (-1074) - (ex + -55)) 0)
      with 53 in * by lia.
    assert (Hm : 2 ^ 52 <= Zpos P / 2 ^ 53)
      by (apply Z.div_le_lower_bound; lia).
    assert (Hm' : ex = -44 -> 7036874417766400 <= Zpos P / 2 ^ 53)
      by (intros ->; apply Z.div_le_lower_bound; lia).
    destruct (m1 <? 2 ^ 53); apply SFleb_finite_pack; lia.
Qed.

Lemma mul_0_2_le_100 (x : spec_float) :
  valid_binary x = true ->
  SFltb x b500 = true ->
  SFleb (SF64mul x b0_2) b100 = true.
Proof.
  intros V H. destruct x as [[|]|[|]| |s mx ex]; try discriminate H; try reflexivity.
  destruct (valid_finite _ _ _ V) as (C & B & Um).
  unfold SF64mul, b0_2, SFmul. rewrite xorb_false_r.
  destruct (binary_round_aux_spec s (mx * 7205759403792794) (ex + -55))
    as (m1 & Hb & _ & H53 & ->).
  set (P := (mx * 7205759403792794)%positive) in *.
  assert (HP : Zpos P = Zpos mx * 7205759403792794) by reflexivity.
  pose proof (digits_le P 106 ltac:(lia)) as D2.
  pose proof (digits_pos P) as D1.
  assert (Hm0 : 0 <= Zpos P / 2 ^ Z.max (fexp (digits P + (ex + -55)) - (ex + -55)) 0).
  { apply Z.div_pos; [lia|]. apply Z.pow_pos_nonneg; lia. }
  destruct s.
  { destruct (m1 <? 2 ^ 53); apply SFleb_pack_finite; try lia; auto. }
  assert (Hlt : ex < -44 \/ (ex = -44 /\ Zpos mx < 8796093022208000)).
  { unfold SFltb, b500, SFcompare in H. rewrite Pos_compare_cont_Eq in H.
    destruct (Z.compare_spec ex (-44)) as [E|L|G]; try discriminate H; try lia.
    destruct (Z.compare_spec (Zpos mx) 8796093022208000); try discriminate H; lia. }
  rewrite fexp_eq in Hb, Hm0 |- *.
  set (n := Z.max (Z.max (digits P + (ex + -55) - 53) (-1074) - (ex + -55)) 0) in *.
  assert (HE : ex + -55 + n <= -46) by lia.
  assert (Htop : ex + -55 + n = -46 -> Zpos P / 2 ^ n < 7036874417766400).
  { intros E. assert (ex = -44 /\ n = 53) as [-> ->] by lia.
    apply Z.div_lt_upper_bound; lia. }
  destruct (Z.ltb_spec m1 (2 ^ 53)); apply SFleb_pack_finite; lia.
Qed.

(** *** Order and sign *)

Lemma SFmul_comm (x y : spec_float) : SF64mul x y = SF64mul y x.
Proof.
  unfold SF64mul.
  destruct x as [sx|sx| |sx mx ex], y as [sy|sy| |sy my ey]; cbn [SFmul];
    try rewrite (xorb_comm sx sy); try reflexivity.
  now rewrite Pos.mul_comm, Z.add_comm.
Qed.

Lemma SFcompare_antisym (x y : spec_float) :
  SFcompare y x = option_map CompOpp (SFcompare x y).
Proof.
  destruct x as [sx|sx| |sx mx ex], y as [sy|sy| |sy my ey];
    try destruct sx; try destruct sy; try reflexivity;
    cbn [SFcompare option_map]; rewrite !Pos_compare_cont_Eq;
    rewrite (Z.compare_antisym ex ey), (Z.compare_antisym (Zpos mx) (Zpos my));
    destruct (ex ?= ey); cbn [CompOpp]; try reflexivity;
    destruct (Zpos mx ?= Zpos my); reflexivity.
Qed.

Lemma SFltb_SFleb (x y : spec_float) : SFltb x y = true -> SFleb x y = true.
Proof. unfold SFltb, SFleb. destruct (SFcompare x y) as [[| |]|]; auto. Qed.

Lemma SFleb_not_SFltb (x y : spec_float) : SFleb x y = true -> SFltb y x = false.
Proof.
  unfold SFltb, SFleb. rewrite (SFcompare_antisym x y).
  destruct (SFcompare x y) as [[| |]|]; cbn; auto; discriminate.
Qed.

Lemma SFleb_total (x y : spec_float) :
  SFcompare x y <> None -> SFltb x y = false -> SFleb y x = true.
Proof.
  unfold SFltb, SFleb. rewrite (SFcompare_antisym x y).
  destruct (SFcompare x y) as [[| |]|]; cbn; auto; congruence.
Qed.

Lemma SFcompare_None (x y : spec_float) :
  SFcompare x y = None -> x = S754_nan \/ y = S754_nan.
Proof.
  destruct x as [sx|sx| |sx mx ex], y as [sy|sy| |sy my ey]; cbn; auto;
    try discriminate; destruct sx; discriminate.
Qed.

Lemma SFleb_refl_r (x y : spec_float) : SFleb x y = true -> SFleb y y = true.
Proof.
  destruct y as [sy|sy| |sy my ey].
  - reflexivity.
  - destruct sy; reflexivity.
  - destruct x as [sx|sx| |sx mx ex]; try destruct sx; discriminate.
  - intros _. unfold SFleb, SFcompare. rewrite Pos_compare_cont_Eq, !Z.compare_refl.
    destruct sy; reflexivity.
Qed.

Lemma sign_clear_pack (m e : Z) : sign_clear (pack false m e) = true.
Proof. destruct m; cbn; try reflexivity. destruct (_ <=? _); reflexivity. Qed.

Lemma sign_clear_mul (x y : spec_float) :
  sign_clear x = true -> sign_clear y = true -> sign_clear (SF64mul x y) = true.
Proof.
  unfold SF64mul.
  destruct x as [[|]|[|]| |[|] mx ex], y as [[|]|[|]| |[|] my ey];
    try discriminate; try reflexivity.
  intros _ _. cbn [SFmul xorb].
  destruct (binary_round_aux_spec false (mx * my) (ex + ey)) as (m1 & _ & _ & _ & ->).
  destruct (_ <? _); apply sign_clear_pack.
Qed.

Lemma sign_clear_not_neg (x : spec_float) :
  sign_clear x = true -> SFltb x (S754_zero false) = false.
Proof. destruct x as [[|]|[|]| |[|] mx ex]; try discriminate; reflexivity. Qed.

Lemma SFltb_zero_sign_clear (x : spec_float) :
  SFltb (S754_zero false) x = true -> sign_clear x = true.
Proof. destruct x as [[|]|[|]| |[|] mx ex]; try discriminate; reflexivity. Qed.

Lemma SFleb_b100_trans (x z : spec_float) :
  SFleb x b100 = true -> SFltb b100 z = true -> SFltb x z = true.
Proof.
  unfold b100.
  destruct x as [[|]|[|]| |[|] mx ex], z as [[|]|[|]| |[|] mz ez];
    try discriminate; try reflexivity.
  unfold SFleb, SFltb, SFcompare. rewrite !Pos_compare_cont_Eq.
  destruct (Z.compare_spec ex (-46)), (Z.compare_spec (-46) ez),
    (Z.compare_spec ex ez); try discriminate; try reflexivity; try lia;
    destruct (Z.compare_spec (Zpos mx) 7036874417766400),
      (Z.compare_spec 7036874417766400 (Zpos mz)),
      (Z.compare_spec (Zpos mx) (Zpos mz));
    try discriminate; try reflexivity; lia.
Qed.

Lemma SFleb_b500_pos (x : spec_float) :
  SFleb b500 x = true -> SFltb (S754_zero false) x = true.
Proof. destruct x as [[|]|[|]| |[|] mx ex]; try discriminate; reflexivity. Qed.

Lemma SFltb_pos_trans (x y : spec_float) :
  SFltb (S754_zero false) x = true -> SFltb x y = true ->
  SFltb (S754_zero false) y = true.
Proof.
  destruct x as [[|]|[|]| |[|] mx ex], y as [[|]|[|]| |[|] my ey];
    try discriminate; reflexivity.
Qed.

Lemma sign_clear_not_below (x y : spec_float) :
  SFltb (S754_zero false) y = true -> SFltb x y = false -> sign_clear x = true.
Proof.
  destruct x as [[|]|[|]| |[|] mx ex], y as [[|]|[|]| |[|] my ey];
    try discriminate; reflexivity.
Qed.

(** *** Subtraction

    A difference whose mantissa fits in 53 bits is exact, and rounding
    keeps the sign of a difference that is not zero. *)

Lemma iter_xO_spec (m d : positive) :
  Zpos (Pos.iter xO m d) = Zpos m * 2 ^ Zpos d /\
  digits (Pos.iter xO m d) = digits m + Zpos d.
Proof.
  induction d as [|d [IH1 IH2]] using Pos.peano_ind.
  - cbn [Pos.iter]. unfold digits. cbn [digits2_pos]. lia.
  - rewrite Pos.iter_succ, Pos2Z.inj_succ, Z.pow_succ_r by lia.
    unfold digits in *. cbn [digits2_pos]. lia.
Qed.

Lemma shl_align_spec (m : positive) (e e' : Z) :
  exists m',
    shl_align m e e' = (m', Z.min e e') /\
    Zpos m' = Zpos m * 2 ^ (e - Z.min e e') /\
    digits m' = digits m + (e - Z.min e e').
Proof.
  unfold shl_align. destruct (e' - e) as [|p|p] eqn:E.
  - exists m. replace (Z.min e e') with e by lia.
    rewrite Z.sub_diag, Z.pow_0_r. repeat split; lia.
  - exists m. replace (Z.min e e') with e by lia.
    rewrite Z.sub_diag, Z.pow_0_r. repeat split; lia.
  - exists (Pos.iter xO m p). replace (Z.min e e') with e' by lia.
    replace (e - e') with (Zpos p) by lia.
    destruct (iter_xO_spec m p). repeat split; assumption.
Qed.

Lemma binary_round_spec (s : bool) (S : positive) (e : Z) :
  -1074 <= e ->
  exists (P : positive) (e1 m1 : Z),
    e1 = fexp (digits S + e) /\
    (digits S <= 53 -> e1 = fexp (digits S + e) /\ m1 = Zpos S * 2 ^ (e - e1)) /\
    1 <= m1 <= 2 ^ 53 /\
    binary_round prec emax s S e
      = if m1 <? 2 ^ 53 then pack s m1 e1 else pack s (2 ^ 52) (e1 + 1).
Proof.
  intros He. unfold binary_round.
  change (SpecFloat.fexp prec emax) with fexp. change (Zpos (digits2_pos S)) with (digits S).
  destruct (shl_align_spec S e (fexp (digits S + e))) as (P & -> & HP & HdP).
  destruct (binary_round_aux_spec s P (Z.min e (fexp (digits S + e))))
    as (m1 & Hb & Hup & H53 & ->).
  rewrite HdP in *. rewrite !fexp_eq in *.
  set (e0 := Z.min e (Z.max (digits S + e - 53) (-1074))) in *.
  set (n := Z.max (Z.max (digits S + (e - e0) + e0 - 53) (-1074) - e0) 0) in *.
  pose proof (digits_pos S) as HdS. pose proof (digits_bounds P) as [LP UP].
  rewrite HdP in LP, UP.
  assert (Hn : 0 <= n) by lia.
  assert (Hpn : 0 < 2 ^ n) by (apply Z.pow_pos_nonneg; lia).
  assert (Hm1 : 1 <= Zpos P / 2 ^ n).
  { apply Z.div_le_lower_bound; [assumption|]. rewrite Z.mul_1_r.
    destruct (Z.eq_dec n 0) as [->|Hn0]; [cbn; lia|].
    assert (En : n = digits S + (e - e0) - 53) by lia.
    pose proof (Z.pow_le_mono_r 2 n (digits S + (e - e0) - 1) ltac:(lia) ltac:(lia)).
    lia. }
  exists P, (e0 + n), m1. split; [lia|]. split; [|split; [lia|reflexivity]].
  intros Hd. assert (En : n = 0) by lia. split; [lia|].
  replace (e - (e0 + n)) with (e - e0) by lia. rewrite <- HP.
  rewrite En, Z.pow_0_r, Z.div_1_r, Z.mul_1_r in *. lia.
Qed.

Lemma SFltb_pack_finite (s : bool) (K : positive) (EK m E : Z) :
  0 <= m -> EK <= 971 ->
  s = true \/ E < EK \/ (E = EK /\ m < Zpos K) ->
  SFltb (pack s m E) (S754_finite false K EK) = true.
Proof.
  intros Hm HK H. destruct m as [|q|q]; try lia; unfold pack.
  - reflexivity.
  - destruct s.
    + destruct (E <=? emax - prec); reflexivity.
    + destruct H as [H|H]; [discriminate|].
      change (emax - prec) with 971.
      destruct (Z.leb_spec E 971); [|lia].
      unfold SFltb, SFcompare. rewrite Pos_compare_cont_Eq.
      destruct (Z.compare_spec E EK) as [->|L|G]; try reflexivity; try lia.
      destruct (Z.compare_spec (Zpos q) (Zpos K)); try reflexivity; lia.
Qed.

Lemma SFltb_pack_zero (m E : Z) :
  1 <= m -> SFltb (pack true m E) (S754_zero false) = true.
Proof.
  intros Hm. destruct m as [|q|q]; try lia. unfold pack.
  destruct (E <=? emax - prec); reflexivity.
Qed.

Lemma SFltb_finite_inv (mx : positive) (ex : Z) (ma : positive) (ea : Z) :
  SFltb (S754_finite false mx ex) (S754_finite false ma ea) = true ->
  ex < ea \/ (ex = ea /\ Zpos mx < Zpos ma).
Proof.
  unfold SFltb, SFcompare. rewrite Pos_compare_cont_Eq.
  destruct (Z.compare_spec ex ea); try discriminate; try lia.
  destruct (Z.compare_spec (Zpos mx) (Zpos ma)); try discriminate; lia.
Qed.

(** The exact difference [x - b] of a valid [x] and a normal [b], as an
    integer multiple of [2^min(ex, eb)]; it is negative when [x < b]. *)
Lemma difference_sign (mx : positive) (ex : Z) (mb : positive) (eb : Z) :
  Zpos mx < 2 ^ 53 -> 2 ^ 52 <= Zpos mb ->
  ex < eb \/ (ex = eb /\ Zpos mx < Zpos mb) ->
  Zpos mx * 2 ^ (ex - Z.min ex eb) - Zpos mb * 2 ^ (eb - Z.min ex eb) < 0.
Proof.
  intros Hx Hb [L|[-> L]].
  - replace (Z.min ex eb) with ex by lia. rewrite Z.sub_diag, Z.pow_0_r.
    pose proof (Z.pow_le_mono_r 2 1 (eb - ex) ltac:(lia) ltac:(lia)) as Hp.
    change (2 ^ 1) with 2 in Hp. nia.
  - rewrite Z.min_id, Z.sub_diag, Z.pow_0_r. lia.
Qed.

(** [fl(x - b) < c] when [x < a], for doubles [a] and [b] of one exponent
    [e0] and [c] at least [a - b]. *)
Lemma SFsub_lt (ma mb : positive) (e0 : Z) (mc : positive) (ec : Z) (x : spec_float) :
  2 ^ 52 <= Zpos mb -> -1074 <= ec <= e0 -> e0 <= 971 -> Zpos mc < 2 ^ 53 ->
  (Zpos ma - Zpos mb) * 2 ^ (e0 - ec) <= Zpos mc ->
  valid_binary x = true ->
  SFltb x (S754_finite false ma e0) = true ->
  SFltb (SF64sub x (S754_finite false mb e0)) (S754_finite false mc ec) = true.
Proof.
  intros Hb Hec He0 Hc Hab V H.
  destruct x as [[|]|[|]| |s mx ex]; try discriminate H; try reflexivity.
  destruct (valid_finite _ _ _ V) as (C & B & Um).
  unfold SF64sub, SFsub.
  destruct (shl_align_spec mx ex (Z.min ex e0)) as (px & -> & Hpx & _).
  destruct (shl_align_spec mb e0 (Z.min ex e0)) as (pb & -> & Hpb & _).
  cbn [fst]. unfold cond_Zopp.
  replace (Z.min e0 (Z.min ex e0)) with (Z.min ex e0) in Hpb by lia.
  replace (Z.min ex (Z.min ex e0)) with (Z.min ex e0) in Hpx by lia.
  set (ez := Z.min ex e0) in *.
  assert (Hez : -1074 <= ez) by lia.
  assert (Hpow : 0 < 2 ^ (e0 - ec)) by (apply Z.pow_pos_nonneg; lia).
  destruct s.
  - (* a negative [x]: the difference is negative *)
    change (- Zpos px - Zpos pb) with (Zneg (px + pb)). cbn [binary_normalize].
    destruct (binary_round_spec true (px + pb) ez Hez) as (P & e1 & m1 & _ & _ & Hm & ->).
    destruct (m1 <? 2 ^ 53); apply SFltb_pack_finite; try lia; auto.
  - destruct (Zpos px - Zpos pb) as [|S|S] eqn:ES; cbn [binary_normalize].
    + reflexivity.
    + (* [b < x < a]: both have exponent [e0], the difference is exact *)
      destruct (SFltb_finite_inv _ _ _ _ H) as [L|[-> L]].
      { exfalso. pose proof (difference_sign mx ex mb e0 Um Hb (or_introl L)).
        fold ez in H0. lia. }
      subst ez. rewrite Z.min_id, Z.sub_diag, Z.pow_0_r in *.
      assert (HS : Zpos S < Zpos ma - Zpos mb) by lia.
      assert (HS53 : Zpos S * 2 ^ (e0 - ec) < 2 ^ 53) by nia.
      assert (Hgap : e0 - ec < 53).
      { destruct (Z_lt_le_dec (e0 - ec) 53) as [|G]; [assumption|].
        pose proof (Z.pow_le_mono_r 2 53 (e0 - ec) ltac:(lia) G). nia. }
      assert (Hd : digits S <= 53 - (e0 - ec)).
      { apply digits_le. apply Z.mul_lt_mono_pos_r with (p := 2 ^ (e0 - ec)); [assumption|].
        rewrite <- Z.pow_add_r by lia. replace (53 - (e0 - ec) + (e0 - ec)) with 53 by lia.
        assumption. }
      pose proof (digits_pos S) as HdS.
      destruct (binary_round_spec false S e0 Hez) as (P & e1 & m1 & _ & Hex & Hm & ->).
      destruct (Hex ltac:(lia)) as [-> ->]. rewrite fexp_eq in *.
      set (e1 := Z.max (digits S + e0 - 53) (-1074)) in *.
      assert (He1 : e1 <= ec) by lia.
      assert (Htop : e1 = ec -> Zpos S * 2 ^ (e0 - e1) < Zpos mc)
        by (intros ->; nia).
      assert (Hfit : Zpos S * 2 ^ (e0 - e1) < 2 ^ 53).
      { pose proof (digits_bounds S) as [_ US].
        assert (Hp : 0 < 2 ^ (e0 - e1)) by (apply Z.pow_pos_nonneg; lia).
        pose proof (Z.pow_le_mono_r 2 (digits S + (e0 - e1)) 53 ltac:(lia) ltac:(lia)) as Hq.
        rewrite Z.pow_add_r in Hq by lia. nia. }
      destruct (Z.ltb_spec (Zpos S * 2 ^ (e0 - e1)) (2 ^ 53)); [|lia].
      apply SFltb_pack_finite; lia.
    + destruct (binary_round_spec true S ez Hez) as (P & e1 & m1 & _ & _ & Hm & ->).
      destruct (m1 <? 2 ^ 53); apply SFltb_pack_finite; try lia; auto.
Qed.

(** [fl(x - b) < 0] when [x < b]. *)
Lemma SFsub_neg (mb : positive) (eb : Z) (x : spec_float) :
  2 ^ 52 <= Zpos mb -> -1074 <= eb ->
  valid_binary x = true ->
  SFltb x (S754_finite false mb eb) = true ->
  SFltb (SF64sub x (S754_finite false mb eb)) (S754_zero false) = true.
Proof.
  intros Hb Heb V H.
  destruct x as [[|]|[|]| |s mx ex]; try discriminate H; try reflexivity.
  destruct (valid_finite _ _ _ V) as (C & B & Um).
  unfold SF64sub, SFsub.
  destruct (shl_align_spec mx ex (Z.min ex eb)) as (px & -> & Hpx & _).
  destruct (shl_align_spec mb eb (Z.min ex eb)) as (pb & -> & Hpb & _).
  cbn [fst]. unfold cond_Zopp.
  replace (Z.min eb (Z.min ex eb)) with (Z.min ex eb) in Hpb by lia.
  replace (Z.min ex (Z.min ex eb)) with (Z.min ex eb) in Hpx by lia.
  set (ez := Z.min ex eb) in *.
  assert (Hez : -1074 <= ez) by lia.
  assert (Hneg : (if s then - Zpos px else Zpos px) - Zpos pb < 0).
  { destruct s; [lia|].
    pose proof (difference_sign mx ex mb eb Um Hb (SFltb_finite_inv _ _ _ _ H)).
    fold ez in H0. lia. }
  destruct ((if s then - Zpos px else Zpos px) - Zpos pb) as [|S|S]; try lia.
  cbn [binary_normalize].
  destruct (binary_round_spec true S ez Hez) as (P & e1 & m1 & _ & _ & Hm & ->).
  destruct (m1 <? 2 ^ 53); apply SFltb_pack_zero; lia.
Qed.

Lemma SFltb_122_500 (x : spec_float) :
  SFltb x b122 = true -> SFltb x b500 = true.
Proof.
  unfold b122, b500. destruct x as [[|]|[|]| |[|] mx ex]; try discriminate; try reflexivity.
  intros H. destruct (SFltb_finite_inv _ _ _ _ H) as [L|[-> L]];
    unfold SFltb, SFcompare; rewrite Pos_compare_cont_Eq.
  - destruct (Z.compare_spec ex (-44)); try reflexivity; lia.
  - reflexivity.
Qed.

Lemma SFltb_below_500 (x y : spec_float) :
  SFltb x y = true -> SFltb y b122 = true -> SFltb x b500 = true.
Proof.
  intros Hxy Hy. apply SFltb_122_500. revert Hxy Hy. unfold b122.
  destruct x as [[|]|[|]| |[|] mx ex], y as [[|]|[|]| |[|] my ey];
    try discriminate; try reflexivity.
  intros Hxy Hy.
  destruct (SFltb_finite_inv _ _ _ _ Hxy) as [L|[-> L]],
    (SFltb_finite_inv _ _ _ _ Hy) as [L'|[-> L']];
    unfold SFltb, SFcompare; rewrite Pos_compare_cont_Eq.
  - destruct (Z.compare_spec ex (-46)); try reflexivity; lia.
  - destruct (Z.compare_spec ex (-46)); try reflexivity; lia.
  - destruct (Z.compare_spec ey (-46)); try reflexivity; lia.
  - rewrite Z.compare_refl.
    destruct (Z.compare_spec (Zpos mx) 8584986789675008); try reflexivity; lia.
Qed.

(** *** Bounds by a power of two *)

Lemma SFleb_trans (x y z : spec_float) :
  SFleb x y = true -> SFleb y z = true -> SFleb x z = true.
Proof.
  destruct x as [sx|sx| |sx mx ex], y as [sy|sy| |sy my ey], z as [sz|sz| |sz mz ez];
    try destruct sx; try destruct sy; try destruct sz;
    try discriminate; try reflexivity;
    unfold SFleb, SFcompare; change (Pos.compare_cont Eq) with Pos.compare;
    destruct (Z.compare_spec ex ey), (Z.compare_spec ey ez), (Z.compare_spec ex ez);
    cbn; try discriminate; try reflexivity; try lia; subst;
    destruct (Pos.compare_spec mx my), (Pos.compare_spec my mz), (Pos.compare_spec mx mz);
    cbn; try discriminate; try reflexivity; lia.
Qed.

Lemma SFleb_refl_l (x y : spec_float) : SFleb x y = true -> SFleb x x = true.
Proof.
  destruct x as [sx|sx| |sx mx ex].
  - reflexivity.
  - destruct sx; reflexivity.
  - discriminate.
  - intros _. unfold SFleb, SFcompare. rewrite Pos_compare_cont_Eq, !Z.compare_refl.
    destruct sx; reflexivity.
Qed.

Lemma SFltb_finite_pack_false (mw : positive) (ew m E : Z) :
  0 <= m -> E <= 971 -> E < ew \/ (E = ew /\ m <= Zpos mw) ->
  SFltb (S754_finite false mw ew) (pack false m E) = false.
Proof.
  intros Hm HE H. destruct m as [|q|q]; try lia; unfold pack; [reflexivity|].
  change (emax - prec) with 971. destruct (Z.leb_spec E 971); [|lia].
  unfold SFltb, SFcompare. rewrite Pos_compare_cont_Eq.
  destruct (Z.compare_spec ew E) as [->|L|G]; try reflexivity; try lia.
  destruct (Z.compare_spec (Zpos mw) (Zpos q)); try reflexivity; lia.
Qed.

(** A fifth of a normal double [m * 2^e] is at most [2^(e + 51)], half of
    the least double of exponent [e]. *)
Lemma mul_0_2_le_half (mx : positive) (ex : Z) :
  valid_binary (S754_finite false mx ex) = true -> -1072 <= ex ->
  SFleb (SF64mul (S754_finite false mx ex) b0_2)
        (S754_finite false 4503599627370496 (ex - 1)) = true.
Proof.
  intros V He. destruct (valid_finite _ _ _ V) as (C & B & Um).
  unfold SF64mul, b0_2, SFmul. cbn [xorb].
  destruct (binary_round_aux_spec false (mx * 7205759403792794) (ex + -55))
    as (m1 & Hb & _ & H53 & ->).
  set (P := (mx * 7205759403792794)%positive) in *.
  assert (HP : Zpos P = Zpos mx * 7205759403792794) by reflexivity.
  pose proof (digits_le P 106 ltac:(lia)) as D2.
  pose proof (digits_pos P) as D1.
  assert (Hm0 : 0 <= Zpos P / 2 ^ Z.max (fexp (digits P + (ex + -55)) - (ex + -55)) 0).
  { apply Z.div_pos; [lia|]. apply Z.pow_pos_nonneg; lia. }
  rewrite fexp_eq in Hb, Hm0 |- *.
  destruct (Z.ltb_spec m1 (2 ^ 53)); apply SFleb_pack_finite; lia.
Qed.

(** Adding 22 to a double above 100 and at most [2^(e + 51)] does not lead
    above a normal double of exponent [e]. *)
Lemma SFadd_22_not_above (mw : positive) (ew : Z) (q : spec_float) :
  2 ^ 52 <= Zpos mw -> ew <= 971 ->
  valid_binary q = true ->
  SFltb b100 q = true ->
  SFleb q (S754_finite false 4503599627370496 (ew - 1)) = true ->
  SFltb (S754_finite false mw ew) (SF64add q b22) = false.
Proof.
  intros Hw Hew V H100 Hq.
  destruct q as [[|]|[|]| |[|] mq eq]; try discriminate H100; try discriminate Hq.
  destruct (valid_finite _ _ _ V) as (C & B & Um).
  assert (Hlo : -46 <= eq).
  { unfold b100 in H100. destruct (SFltb_finite_inv _ _ _ _ H100); lia. }
  assert (Hhi : eq < ew - 1 \/ (eq = ew - 1 /\ Zpos mq <= 2 ^ 52)).
  { unfold SFleb, SFcompare in Hq. rewrite Pos_compare_cont_Eq in Hq.
    destruct (Z.compare_spec eq (ew - 1)); try discriminate Hq; try lia.
    destruct (Z.compare_spec (Zpos mq) 4503599627370496); try discriminate Hq; lia. }
  unfold SF64add, b22, SFadd.
  destruct (shl_align_spec mq eq (Z.min eq (-48))) as (pq & -> & Hpq & _).
  destruct (shl_align_spec 6192449487634432 (-48) (Z.min eq (-48))) as (pc & -> & Hpc & _).
  cbn [fst cond_Zopp].
  replace (Z.min (-48) (Z.min eq (-48))) with (-48) in Hpc by lia.
  replace (Z.min eq (Z.min eq (-48))) with (-48) in Hpq by lia.
  replace (Z.min eq (-48)) with (-48) by lia.
  change (-48 - -48) with 0 in Hpc. rewrite Z.pow_0_r, Z.mul_1_r in Hpc.
  change (Zpos pq + Zpos pc) with (Zpos (pq + pc)). cbn [binary_normalize].
  destruct (binary_round_spec false (pq + pc) (-48) ltac:(lia))
    as (P & e1 & m1 & -> & _ & Hm & ->).
  assert (Hsum : Zpos (pq + pc) < 2 ^ (ew + 100)).
  { rewrite Pos2Z.inj_add, Hpq, Hpc.
    assert (Hq99 : Zpos mq * 2 ^ (eq - -48) <= 2 ^ (ew + 99)).
    { destruct Hhi as [L|[-> L]].
      - pose proof (Z.pow_le_mono_r 2 (eq - -48) (ew + 46) ltac:(lia) ltac:(lia)) as Hp.
        assert (0 < 2 ^ (eq - -48)) by (apply Z.pow_pos_nonneg; lia).
        replace (ew + 99) with (53 + (ew + 46)) by lia. rewrite Z.pow_add_r by lia. nia.
      - replace (ew + 99) with (52 + (ew - 1 - -48)) by lia. rewrite Z.pow_add_r by lia.
        assert (0 < 2 ^ (ew - 1 - -48)) by (apply Z.pow_pos_nonneg; lia). nia. }
    pose proof (Z.pow_le_mono_r 2 53 (ew + 99) ltac:(lia) ltac:(lia)) as Hp.
    replace (ew + 100) with (1 + (ew + 99)) by lia. rewrite Z.pow_add_r by lia.
    change (2 ^ 1) with 2. lia. }
  pose proof (digits_le _ _ Hsum) as Hd. pose proof (digits_pos (pq + pc)) as Hd1.
  rewrite fexp_eq.
  destruct (Z.ltb_spec m1 (2 ^ 53)); apply SFltb_finite_pack_false; lia.
Qed.

(** On a page whose smaller side [m] is at least 500, a size [q] above 100
    that is the ceiling [0.2 * m] or not above it leaves [q + 22] at most
    the width [w]. *)
Lemma wide_page_clear (m w q : spec_float) :
  valid_binary m = true -> valid_binary w = true -> valid_binary q = true ->
  SFltb (S754_zero false) m = true ->
  SFltb m b500 = false ->
  SFleb m w = true ->
  SFltb b100 q = true ->
  q = SF64mul m b0_2 \/ SFltb (SF64mul m b0_2) q = false ->
  SFltb w (SF64add q b22) = false.
Proof.
  intros Vm Vw Vq Hpos H500 Hmw H100 Hq.
  destruct m as [[|]|[|]| |[|] mm em]; try discriminate Hpos.
  { destruct w as [[|]|[|]| |[|] mw ew]; try discriminate Hmw.
    destruct (SF64add q b22) as [[|]|[|]| |[|] ? ?]; reflexivity. }
  assert (Hem : -44 <= em).
  { unfold SFltb, b500, SFcompare in H500.
    destruct (Z.compare_spec em (-44)); try discriminate H500; lia. }
  destruct w as [[|]|[|]| |[|] mw ew]; try discriminate Hmw.
  { destruct (SF64add q b22) as [[|]|[|]| |[|] ? ?]; reflexivity. }
  assert (Hew : em <= ew).
  { unfold SFleb, SFcompare in Hmw.
    destruct (Z.compare_spec em ew); try discriminate Hmw; lia. }
  destruct (valid_finite _ _ _ Vw) as (_ & Bw & _).
  pose proof (valid_normal _ _ _ Vw ltac:(lia)) as [Lw _].
  pose proof (mul_0_2_le_half mm em Vm ltac:(lia)) as Hhalf.
  apply SFadd_22_not_above; try assumption.
  assert (Hqc : SFleb q (SF64mul (S754_finite false mm em) b0_2) = true).
  { destruct Hq as [->|Hq]; [exact (SFleb_refl_l _ _ Hhalf)|].
    apply SFleb_total; [|assumption].
    intros N. destruct (SFcompare_None _ _ N) as [E|E]; rewrite E in *; discriminate. }
  apply (SFleb_trans _ _ _ Hqc), (SFleb_trans _ _ _ Hhalf).
  unfold SFleb, SFcompare. rewrite Pos_compare_cont_Eq.
  destruct (Z.compare_spec (em - 1) (ew - 1)); try reflexivity; lia.
Qed.

End Binary64Facts.

(** ** Binary64 rounding: lower bounds and order *)
Module Binary64Bounds.

Import Binary64 Binary64Facts.
Local Open Scope Z_scope.

Lemma SFltb_leb_trans (x y z : spec_float) :
  SFltb x y = true -> SFleb y z = true -> SFltb x z = true.
Proof.
  destruct x as [sx|sx| |sx mx ex], y as [sy|sy| |sy my ey], z as [sz|sz| |sz mz ez];
    try destruct sx; try destruct sy; try destruct sz;
    try discriminate; try reflexivity;
    unfold SFltb, SFleb, SFcompare; change (Pos.compare_cont Eq) with Pos.compare;
    destruct (Z.compare_spec ex ey), (Z.compare_spec ey ez), (Z.compare_spec ex ez);
    cbn; try discriminate; try reflexivity; try lia; subst;
    destruct (Pos.compare_spec mx my), (Pos.compare_spec my mz), (Pos.compare_spec mx mz);
    cbn; try discriminate; try reflexivity; lia.
Qed.

(** Two doubles above zero that compare neither way are the same double. *)
Lemma SFcompare_Eq_pos (x y : spec_float) :
  SFltb (S754_zero false) x = true -> SFltb (S754_zero false) y = true ->
  SFltb x y = false -> SFltb y x = false -> x = y.
Proof.
  destruct x as [[|]|[|]| |[|] mx ex], y as [[|]|[|]| |[|] my ey];
    try discriminate; try reflexivity.
  intros _ _. unfold SFltb, SFcompare. change (Pos.compare_cont Eq) with Pos.compare.
  destruct (Z.compare_spec ex ey), (Z.compare_spec ey ex); try discriminate; try lia.
  destruct (Pos.compare_spec mx my), (Pos.compare_spec my mx); try discriminate; try lia.
  intros _ _. congruence.
Qed.

Lemma SFleb_finite_inv (ma : positive) (ea : Z) (x : spec_float) :
  SFleb (S754_finite false ma ea) x = true ->
  x = S754_infinity false \/
  exists mx ex, x = S754_finite false mx ex /\
                (ea < ex \/ (ex = ea /\ Zpos ma <= Zpos mx)).
Proof.
  destruct x as [[|]|[|]| |[|] mx ex]; try discriminate; auto.
  intros H. right. exists mx, ex. split; [reflexivity|].
  unfold SFleb, SFcompare in H. rewrite Pos_compare_cont_Eq in H.
  destruct (Z.compare_spec ea ex); try discriminate H; try lia.
  destruct (Z.compare_spec (Zpos ma) (Zpos mx)); try discriminate H; lia.
Qed.

Lemma SFltb_pack_zero_false (m E : Z) :
  0 <= m -> SFltb (pack false m E) (S754_zero false) = false.
Proof.
  intros Hm. destruct m as [|q|q]; try lia; unfold pack; [reflexivity|].
  destruct (E <=? emax - prec); reflexivity.
Qed.

(** [c <= fl(x - b)] when [a <= x], for doubles [a > b] of one exponent
    [e0] and a normal [c] at most [a - b]. *)
Lemma SFsub_ge (ma mb : positive) (e0 : Z) (mc : positive) (ec : Z) (x : spec_float) :
  Zpos mb < Zpos ma < 2 ^ 53 -> -1074 <= ec <= e0 -> 2 ^ 52 <= Zpos mc ->
  Zpos mc <= (Zpos ma - Zpos mb) * 2 ^ (e0 - ec) ->
  valid_binary x = true ->
  SFleb (S754_finite false ma e0) x = true ->
  SFleb (S754_finite false mc ec) (SF64sub x (S754_finite false mb e0)) = true.
Proof.
  intros Hab Hec Hc Hle V H.
  destruct (SFleb_finite_inv _ _ _ H) as [->|(mx & ex & -> & Hx)]; [reflexivity|].
  destruct (valid_finite _ _ _ V) as (C & B & Um).
  assert (Hmx : ex = e0 \/ 2 ^ 52 <= Zpos mx).
  { destruct (Z.eq_dec ex e0); [auto|right].
    exact (proj1 (valid_normal _ _ _ V ltac:(lia))). }
  unfold SF64sub, SFsub.
  destruct (shl_align_spec mx ex (Z.min ex e0)) as (px & -> & Hpx & _).
  destruct (shl_align_spec mb e0 (Z.min ex e0)) as (pb & -> & Hpb & _).
  cbn [fst cond_Zopp].
  replace (Z.min e0 (Z.min ex e0)) with e0 in Hpb by lia.
  replace (Z.min ex (Z.min ex e0)) with e0 in Hpx by lia.
  replace (Z.min ex e0) with e0 by lia.
  rewrite Z.sub_diag, Z.pow_0_r, Z.mul_1_r in Hpb.
  assert (HS : Zpos ma - Zpos mb <= Zpos px - Zpos pb).
  { rewrite Hpx, Hpb. destruct Hx as [L|[-> L]].
    - pose proof (Z.pow_le_mono_r 2 1 (ex - e0) ltac:(lia) ltac:(lia)) as Hp.
      change (2 ^ 1) with 2 in Hp. nia.
    - rewrite Z.sub_diag, Z.pow_0_r. lia. }
  destruct (Zpos px - Zpos pb) as [|S|S] eqn:ES; try lia.
  cbn [binary_normalize].
  assert (Hpow : 0 < 2 ^ (e0 - ec)) by (apply Z.pow_pos_nonneg; lia).
  assert (Hd : 53 - (e0 - ec) <= digits S).
  { destruct (Z_lt_le_dec (e0 - ec) 53) as [Hgap|Hgap]; [|pose proof (digits_pos S); lia].
    enough (52 - (e0 - ec) < digits S) by lia.
    apply digits_gt; [lia|].
    apply Z.mul_le_mono_pos_r with (p := 2 ^ (e0 - ec)); [assumption|].
    rewrite <- Z.pow_add_r by lia. replace (52 - (e0 - ec) + (e0 - ec)) with 52 by lia.
    nia. }
  destruct (binary_round_spec false S e0 ltac:(lia)) as (P & e1 & m1 & He1 & Hex & Hm & ->).
  rewrite fexp_eq in He1.
  assert (Htop : e1 = ec -> Zpos mc <= m1).
  { intros E. destruct (Hex ltac:(lia)) as [_ ->]. rewrite E. nia. }
  destruct (Z.ltb_spec m1 (2 ^ 53)); apply SFleb_finite_pack; lia.
Qed.

(** [fl(x - b)] is not negative when [b <= x]. *)
Lemma SFsub_nonneg (mb : positive) (eb : Z) (x : spec_float) :
  Zpos mb < 2 ^ 53 -> -1074 <= eb ->
  valid_binary x = true ->
  SFleb (S754_finite false mb eb) x = true ->
  SFltb (SF64sub x (S754_finite false mb eb)) (S754_zero false) = false.
Proof.
  intros Hb Heb V H.
  destruct (SFleb_finite_inv _ _ _ H) as [->|(mx & ex & -> & Hx)]; [reflexivity|].
  destruct (valid_finite _ _ _ V) as (C & B & Um).
  assert (Hmx : ex = eb \/ 2 ^ 52 <= Zpos mx).
  { destruct (Z.eq_dec ex eb); [auto|right].
    exact (proj1 (valid_normal _ _ _ V ltac:(lia))). }
  unfold SF64sub, SFsub.
  destruct (shl_align_spec mx ex (Z.min ex eb)) as (px & -> & Hpx & _).
  destruct (shl_align_spec mb eb (Z.min ex eb)) as (pb & -> & Hpb & _).
  cbn [fst cond_Zopp].
  replace (Z.min eb (Z.min ex eb)) with eb in Hpb by lia.
  replace (Z.min ex (Z.min ex eb)) with eb in Hpx by lia.
  replace (Z.min ex eb) with eb by lia.
  rewrite Z.sub_diag, Z.pow_0_r, Z.mul_1_r in Hpb.
  assert (HS : 0 <= Zpos px - Zpos pb).
  { rewrite Hpx, Hpb. destruct Hx as [L|[-> L]].
    - pose proof (Z.pow_le_mono_r 2 1 (ex - eb) ltac:(lia) ltac:(lia)) as Hp.
      change (2 ^ 1) with 2 in Hp. nia.
    - rewrite Z.sub_diag, Z.pow_0_r. lia. }
  destruct (Zpos px - Zpos pb) as [|S|S] eqn:ES; try lia; cbn [binary_normalize].
  - reflexivity.
  - destruct (binary_round_spec false S eb Heb) as (P & e1 & m1 & _ & _ & Hm & ->).
    destruct (m1 <? 2 ^ 53); apply SFltb_pack_zero_false; lia.
Qed.

(** On a page whose smaller side [m] is at least 500, a size [q] above 100
    that is the ceiling [0.2 * m] or not above it is at most half of the
    least double of a side's exponent. *)
Lemma wide_size_bound (m w q : spec_float) :
  valid_binary m = true -> valid_binary w = true -> valid_binary q = true ->
  SFltb (S754_zero false) m = true ->
  SFltb m b500 = false ->
  SFleb m w = true ->
  SFltb b100 q = true ->
  q = SF64mul m b0_2 \/ SFltb (SF64mul m b0_2) q = false ->
  w = S754_infinity false \/
  exists mw ew mq eq,
    w = S754_finite false mw ew /\ q = S754_finite false mq eq /\
    2 ^ 52 <= Zpos mw /\ -44 <= ew /\ -46 <= eq /\ Zpos mq < 2 ^ 53 /\
    (eq < ew - 1 \/ (eq = ew - 1 /\ Zpos mq <= 2 ^ 52)).
Proof.
  intros Vm Vw Vq Hpos H500 Hmw H100 Hq.
  destruct m as [[|]|[|]| |[|] mm em]; try discriminate Hpos.
  { destruct w as [[|]|[|]| |[|] mw ew]; try discriminate Hmw. left. reflexivity. }
  assert (Hem : -44 <= em).
  { unfold SFltb, b500, SFcompare in H500.
    destruct (Z.compare_spec em (-44)); try discriminate H500; lia. }
  destruct w as [[|]|[|]| |[|] mw ew]; try discriminate Hmw; [left; reflexivity|right].
  assert (Hew : em <= ew).
  { unfold SFleb, SFcompare in Hmw.
    destruct (Z.compare_spec em ew); try discriminate Hmw; lia. }
  pose proof (valid_normal _ _ _ Vw ltac:(lia)) as [Lw _].
  pose proof (mul_0_2_le_half mm em Vm ltac:(lia)) as Hhalf.
  assert (Hqc : SFleb q (SF64mul (S754_finite false mm em) b0_2) = true).
  { destruct Hq as [->|Hq]; [exact (SFleb_refl_l _ _ Hhalf)|].
    apply SFleb_total; [|assumption].
    intros N. destruct (SFcompare_None _ _ N) as [E|E]; rewrite E in *; discriminate. }
  pose proof (SFleb_trans _ _ _ Hqc Hhalf) as Hqh.
  destruct q as [[|]|[|]| |[|] mq eq]; try discriminate H100; try discriminate Hqh.
  destruct (valid_finite _ _ _ Vq) as (_ & _ & Uq).
  exists mw, ew, mq, eq. repeat (split; [first [reflexivity|lia|assumption]|]).
  split.
  { unfold b100 in H100. destruct (SFltb_finite_inv _ _ _ _ H100); lia. }
  split; [assumption|].
  unfold SFleb, SFcompare in Hqh. rewrite Pos_compare_cont_Eq in Hqh.
  destruct (Z.compare_spec eq (em - 1)); try discriminate Hqh; try lia.
  destruct (Z.compare_spec (Zpos mq) 4503599627370496); try discriminate Hqh; lia.
Qed.

(** Then the side less the size is at least 22 (or, of two infinities, not
    a number). *)
Lemma wide_sub_ge (m w q : spec_float) :
  valid_binary m = true -> valid_binary w = true -> valid_binary q = true ->
  SFltb (S754_zero false) m = true ->
  SFltb m b500 = false ->
  SFleb m w = true ->
  SFltb b100 q = true ->
  q = SF64mul m b0_2 \/ SFltb (SF64mul m b0_2) q = false ->
  SF64sub w q = S754_nan \/ SFleb b22 (SF64sub w q) = true.
Proof.
  intros Vm Vw Vq Hpos H500 Hmw H100 Hq.
  destruct (wide_size_bound m w q Vm Vw Vq Hpos H500 Hmw H100 Hq)
    as [->|(mw & ew & mq & eq & -> & -> & Lw & Hew & Heq & Uq & Hhi)].
  { destruct q as [[|]|[|]| |[|] mq eq]; try discriminate H100; auto. }
  right. unfold SF64sub, SFsub.
  destruct (shl_align_spec mw ew (Z.min ew eq)) as (pw & -> & Hpw & _).
  destruct (shl_align_spec mq eq (Z.min ew eq)) as (pq & -> & Hpq & _).
  cbn [fst cond_Zopp].
  replace (Z.min eq (Z.min ew eq)) with eq in Hpq by lia.
  replace (Z.min ew (Z.min ew eq)) with eq in Hpw by lia.
  replace (Z.min ew eq) with eq by lia.
  rewrite Z.sub_diag, Z.pow_0_r, Z.mul_1_r in Hpq.
  assert (HS : 2 ^ (51 + (ew - eq)) <= Zpos pw - Zpos pq).
  { rewrite Hpw, Hpq, Z.pow_add_r by lia.
    assert (Hp : 0 < 2 ^ (ew - eq)) by (apply Z.pow_pos_nonneg; lia).
    destruct Hhi as [L|[E L]].
    - pose proof (Z.pow_le_mono_r 2 2 (ew - eq) ltac:(lia) ltac:(lia)) as Hq2.
      change (2 ^ 2) with 4 in Hq2. nia.
    - replace (ew - eq) with 1 in * by lia. change (2 ^ 1) with 2 in *. lia. }
  assert (H0 : 0 < 2 ^ (51 + (ew - eq))) by (apply Z.pow_pos_nonneg; lia).
  destruct (Zpos pw - Zpos pq) as [|S|S] eqn:ES; try lia.
  cbn [binary_normalize].
  pose proof (digits_gt S (51 + (ew - eq)) ltac:(lia) HS) as Hd.
  destruct (valid_finite _ _ _ Vq) as (Cq & _ & _).
  destruct (binary_round_spec false S eq ltac:(lia)) as (P & e1 & m1 & He1 & _ & Hm & ->).
  rewrite fexp_eq in He1. unfold b22.
  destruct (Z.ltb_spec m1 (2 ^ 53)); apply SFleb_finite_pack; lia.
Qed.

(** A fifth of a double above zero is a number. *)
Lemma mul_0_2_number (x : spec_float) :
  SFltb (S754_zero false) x = true ->
  SFleb (SF64mul x b0_2) (SF64mul x b0_2) = true.
Proof.
  destruct x as [[|]|[|]| |[|] mx ex]; try discriminate; try reflexivity.
  intros _. unfold SF64mul, b0_2, SFmul. cbn [xorb].
  destruct (binary_round_aux_spec false (mx * 7205759403792794) (ex + -55))
    as (m1 & Hb & _ & _ & ->).
  assert (Hm0 : 0 <= Zpos (mx * 7205759403792794) /
                  2 ^ Z.max (fexp (digits (mx * 7205759403792794) + (ex + -55))
                             - (ex + -55)) 0).
  { apply Z.div_pos; [lia|]. apply Z.pow_pos_nonneg; lia. }
  assert (Hpack : forall m E, 0 <= m -> SFleb (pack false m E) (pack false m E) = true).
  { intros m E Hm. destruct m as [|p|p]; try lia; unfold pack; [reflexivity|].
    destruct (E <=? emax - prec); [|reflexivity].
    unfold SFleb, SFcompare. now rewrite Pos_compare_cont_Eq, !Z.compare_refl. }
  destruct (m1 <? 2 ^ 53); apply Hpack; lia.
Qed.

(** A double below zero is a number and is not zero; its absolute value is
    an infinity only when it is the negative infinity. *)
Lemma below_zero_facts (x : spec_float) :
  SFltb x (S754_zero false) = true ->
  SFeqb x x = true /\ SFeqb x (S754_zero false) = false.
Proof.
  destruct x as [[|]|[|]| |[|] mx ex]; try discriminate; intros _; split;
    try reflexivity.
  unfold SFeqb, SFcompare. now rewrite Pos_compare_cont_Eq, !Z.compare_refl.
Qed.

Lemma SFleb_ltb_trans (x y z : spec_float) :
  SFleb x y = true -> SFltb y z = true -> SFltb x z = true.
Proof.
  destruct x as [sx|sx| |sx mx ex], y as [sy|sy| |sy my ey], z as [sz|sz| |sz mz ez];
    try destruct sx; try destruct sy; try destruct sz;
    try discriminate; try reflexivity;
    unfold SFltb, SFleb, SFcompare; change (Pos.compare_cont Eq) with Pos.compare;
    destruct (Z.compare_spec ex ey), (Z.compare_spec ey ez), (Z.compare_spec ex ez);
    cbn; try discriminate; try reflexivity; try lia; subst;
    destruct (Pos.compare_spec mx my), (Pos.compare_spec my mz), (Pos.compare_spec mx mz);
    cbn; try discriminate; try reflexivity; lia.
Qed.

Lemma SFltb_zero_total (x y : spec_float) :
  SFltb (S754_zero false) x = true -> SFltb (S754_zero false) y = true ->
  SFltb x y = false -> SFleb y x = true.
Proof.
  intros Hx Hy. apply SFleb_total. intros N.
  destruct (SFcompare_None _ _ N) as [E|E]; rewrite E in *; discriminate.
Qed.

End Binary64Bounds.

(** ** Python floats: facts on the primitive type *)
Module PyFloatFacts.

Import Binary64 Binary64Facts Py.
Local Open Scope float_scope.

Lemma Prim2SF_0_2 : Prim2SF 0.2 = b0_2.
Proof. reflexivity. Qed.

Lemma Prim2SF_100 : Prim2SF 100 = b100.
Proof. reflexivity. Qed.

Lemma Prim2SF_500 : Prim2SF 500 = b500.
Proof. reflexivity. Qed.

Lemma Prim2SF_0 : Prim2SF 0 = S754_zero false.
Proof. reflexivity. Qed.

Lemma float_mul_comm (x y : float) : x * y = y * x.
Proof. apply Prim2SF_inj. rewrite !mul_spec. apply SFmul_comm. Qed.

Lemma float_ltb_leb (x y : float) : (x <? y) = true -> (x <=? y) = true.
Proof. rewrite ltb_spec, leb_spec. apply SFltb_SFleb. Qed.

(** A float at least 500 scales to at least 100, one below 500 to at most
    100: rounding the product by [0.2] does not cross 100. *)
Lemma scaled_ge_100 (m : float) : (500 <=? m) = true -> (100 <=? m * 0.2) = true.
Proof.
  rewrite !leb_spec, mul_spec, Prim2SF_0_2, Prim2SF_100, Prim2SF_500.
  apply mul_0_2_ge_100, Prim2SF_valid.
Qed.

Lemma scaled_le_100 (m : float) : (m <? 500) = true -> (m * 0.2 <=? 100) = true.
Proof.
  rewrite ltb_spec, leb_spec, mul_spec, Prim2SF_0_2, Prim2SF_100, Prim2SF_500.
  apply mul_0_2_le_100, Prim2SF_valid.
Qed.

(** A product of two floats that are not negative is not negative, so its
    power is a float. *)
Lemma float_pow_of_sign_clear (pow : float -> float -> float) (v w : float) :
  sign_clear (Prim2SF v) = true -> exists p, float_pow pow v w = PyFloat p.
Proof.
  intros Hs. unfold float_pow.
  destruct (is_nan v); [eauto|]. destruct (is_infinity v); [eauto|].
  destruct (is_zero v); [eauto|].
  rewrite ltb_spec, Prim2SF_0, (sign_clear_not_neg _ Hs). eauto.
Qed.

Lemma sign_clear_product (x y : float) :
  sign_clear (Prim2SF x) = true -> sign_clear (Prim2SF y) = true ->
  sign_clear (Prim2SF (x * y)) = true.
Proof. rewrite mul_spec. apply sign_clear_mul. Qed.

Lemma sign_clear_of_pos (x : float) : (0 <? x) = true -> sign_clear (Prim2SF x) = true.
Proof. rewrite ltb_spec, Prim2SF_0. apply SFltb_zero_sign_clear. Qed.

(** When the smaller side of a page is at least 500, neither side is
    negative. *)
Lemma sides_of_large_page (W H : float) :
  (500 <=? py_min W H) = true ->
  sign_clear (Prim2SF W) = true /\ sign_clear (Prim2SF H) = true.
Proof.
  unfold py_min. destruct (H <? W) eqn:HW; rewrite leb_spec, Prim2SF_500; intros Hm;
    pose proof (SFleb_b500_pos _ Hm) as Hp; rewrite ltb_spec in HW.
  - split; apply SFltb_zero_sign_clear; [|assumption].
    exact (SFltb_pos_trans _ _ Hp HW).
  - split; [apply SFltb_zero_sign_clear; assumption|].
    exact (sign_clear_not_below _ _ Hp HW).
Qed.

(** The size on a page whose sides are not negative is the clamp of the
    source, on floats. *)
Lemma qr_size_value (pow : float -> float -> float) (W H : float) :
  sign_clear (Prim2SF W) = true -> sign_clear (Prim2SF H) = true ->
  exists p,
    float_pow pow (W * H) 0.3 = PyFloat p /\
    qr_size pow W H = Ok (py_max 100 (py_min (p * 0.1) (py_min W H * 0.2))).
Proof.
  intros HW HH.
  destruct (float_pow_of_sign_clear pow (W * H) 0.3 (sign_clear_product _ _ HW HH))
    as [p Hp].
  exists p. split; [assumption|]. unfold qr_size. rewrite Hp. reflexivity.
Qed.

(** The clamp with a ceiling of at least 100 stays between 100 and the
    ceiling. *)
Lemma clamp_between (t c : float) :
  (100 <=? c) = true ->
  (100 <=? py_max 100 (py_min t c)) = true /\ (py_max 100 (py_min t c) <=? c) = true.
Proof.
  intros Hc. unfold py_max. destruct (100 <? py_min t c) eqn:Hlt.
  - split; [apply float_ltb_leb; assumption|].
    unfold py_min in *. destruct (c <? t) eqn:Hct.
    + rewrite leb_spec in *. exact (SFleb_refl_r _ _ Hc).
    + rewrite leb_spec, ltb_spec in *. apply SFleb_total; [|assumption].
      intros N. destruct (SFcompare_None _ _ N) as [E|E]; rewrite E in *.
      * destruct (Prim2SF 100); discriminate.
      * discriminate.
  - split; [reflexivity|assumption].
Qed.

(** The clamp with a ceiling of at most 100 is 100. *)
Lemma clamp_floor (t c : float) :
  (c <=? 100) = true -> py_max 100 (py_min t c) = 100.
Proof.
  intros Hc. unfold py_max. destruct (100 <? py_min t c) eqn:Hlt; [|reflexivity].
  exfalso. unfold py_min in Hlt. rewrite leb_spec, Prim2SF_100 in Hc.
  destruct (c <? t) eqn:Hct; rewrite ltb_spec, Prim2SF_100 in Hlt.
  - rewrite (SFleb_not_SFltb _ _ Hc) in Hlt. discriminate.
  - rewrite ltb_spec, (SFleb_b100_trans _ _ Hc Hlt) in Hct. discriminate.
Qed.

Lemma Prim2SF_2 : Prim2SF 2 = b2.
Proof. reflexivity. Qed.

Lemma Prim2SF_20 : Prim2SF 20 = b20.
Proof. reflexivity. Qed.

Lemma Prim2SF_122 : Prim2SF 122 = b122.
Proof. reflexivity. Qed.

(** On a page narrower than 122 points the abscissa computed for a size of
    100 is negative: [W - 100 < 22], then [W - 100 - 20 < 2], then
    [W - 100 - 20 - 2 < 0], none of the three roundings reaching its bound. *)
Lemma abscissa_negative (W : float) :
  (W <? 122) = true -> (W - 100 - 20 - 2 <? 0) = true.
Proof.
  intros HW. rewrite ltb_spec in *. rewrite Prim2SF_122 in HW. rewrite Prim2SF_0.
  rewrite (sub_spec _ 2), Prim2SF_2. apply SFsub_neg; try apply Prim2SF_valid; try lia.
  rewrite (sub_spec _ 20), Prim2SF_20.
  apply (SFsub_lt 6192449487634432); try apply Prim2SF_valid; try lia.
  rewrite (sub_spec _ 100), Prim2SF_100.
  apply (SFsub_lt 8584986789675008); try apply Prim2SF_valid; try lia.
  exact HW.
Qed.

(** A page narrower than 122 points has its smaller side below 500. *)
Lemma narrow_page_small (W H : float) :
  (W <? 122) = true -> (py_min W H <? 500) = true.
Proof.
  unfold py_min. destruct (H <? W) eqn:HW; intros Hw;
    rewrite ltb_spec in *; rewrite Prim2SF_122 in Hw; rewrite Prim2SF_500.
  - exact (SFltb_below_500 _ _ HW Hw).
  - exact (SFltb_122_500 _ Hw).
Qed.

(** On a page whose sides are not negative and whose smaller side is below
    500, the ceiling is at most 100 and the size is 100. *)
Lemma qr_size_small_page (pow : float -> float -> float) (W H : float) :
  sign_clear (Prim2SF W) = true -> sign_clear (Prim2SF H) = true ->
  (py_min W H <? 500) = true ->
  qr_size pow W H = Ok 100.
Proof.
  intros HW HH Hm. destruct (qr_size_value pow W H HW HH) as (p & _ & Hq).
  rewrite Hq. f_equal. apply clamp_floor, scaled_le_100, Hm.
Qed.

Lemma Prim2SF_22 : Prim2SF 22 = b22.
Proof. reflexivity. Qed.

Lemma py_min_pos (W H : float) :
  (0 <? W) = true -> (0 <? H) = true -> (0 <? py_min W H) = true.
Proof. unfold py_min. destruct (H <? W); auto. Qed.

Lemma py_min_le_l (W H : float) :
  (0 <? W) = true -> (py_min W H <=? W) = true.
Proof.
  intros HW. unfold py_min. destruct (H <? W) eqn:E.
  - apply float_ltb_leb, E.
  - apply float_ltb_leb in HW. rewrite leb_spec in *. exact (SFleb_refl_r _ _ HW).
Qed.

(** The width of a page of positive sides is below [qr_size + 22] only
    when it is below 122: a size above 100 is at most a fifth of the
    width. *)
Lemma narrow_of_overlap (pow : float -> float -> float) (W H q : float) :
  (0 <? W) = true -> (0 <? H) = true ->
  qr_size pow W H = Ok q -> (W <? q + 22) = true ->
  q = 100 /\ (W <? 122) = true.
Proof.
  intros HW HH Hq Hlt.
  pose proof (sign_clear_of_pos _ HW) as SW. pose proof (sign_clear_of_pos _ HH) as SH.
  destruct (py_min W H <? 500) eqn:Hsmall.
  - rewrite (qr_size_small_page pow W H SW SH Hsmall) in Hq. injection Hq as <-.
    split; [reflexivity|exact Hlt].
  - destruct (qr_size_value pow W H SW SH) as (p & _ & Hv).
    rewrite Hv in Hq. injection Hq as <-.
    unfold py_max in *. destruct (100 <? py_min (p * 0.1) (py_min W H * 0.2)) eqn:Hr.
    + exfalso. set (q := py_min (p * 0.1) (py_min W H * 0.2)) in *.
      enough (Hno : (W <? q + 22) = false) by congruence.
      subst q. rewrite ltb_spec, add_spec, Prim2SF_22.
      apply (wide_page_clear (Prim2SF (py_min W H))); try apply Prim2SF_valid.
      * rewrite <- Prim2SF_0, <- ltb_spec. apply py_min_pos; assumption.
      * rewrite <- Prim2SF_500, <- ltb_spec. exact Hsmall.
      * rewrite <- leb_spec. apply py_min_le_l, HW.
      * rewrite <- Prim2SF_100, <- ltb_spec. exact Hr.
      * assert (Hcase : py_min (p * 0.1) (py_min W H * 0.2) = py_min W H * 0.2 \/
                        (py_min W H * 0.2 <? py_min (p * 0.1) (py_min W H * 0.2)) = false).
        { generalize (py_min W H * 0.2) (p * 0.1). intros c t.
          unfold py_min. destruct (c <? t) eqn:Hc; auto. }
        rewrite <- Prim2SF_0_2, <- mul_spec, <- ltb_spec.
        destruct Hcase as [E|E]; [left; now rewrite E|right; exact E].
    + split; [reflexivity|exact Hlt].
Qed.

End PyFloatFacts.

(** ** Python floats: more facts on the primitive type *)
Module PyFloatBounds.

Import Binary64 Binary64Facts Binary64Bounds PyFloatFacts Py.
Local Open Scope float_scope.

Lemma float_pos_spec (x : float) :
  (0 <? x) = true -> SFltb (S754_zero false) (Prim2SF x) = true.
Proof. now rewrite ltb_spec, Prim2SF_0. Qed.

Lemma float_not_lt_le (x y : float) :
  (0 <? x) = true -> (0 <? y) = true -> (x <? y) = false -> (y <=? x) = true.
Proof.
  intros Hx Hy. rewrite ltb_spec, leb_spec.
  apply SFltb_zero_total; apply float_pos_spec; assumption.
Qed.

Lemma float_leb_refl (x : float) : (0 <? x) = true -> (x <=? x) = true.
Proof.
  intros Hx. apply float_ltb_leb in Hx. rewrite leb_spec in *.
  exact (SFleb_refl_r _ _ Hx).
Qed.

(** Python's [min] of two floats above zero does not depend on their
    order. *)
Lemma py_min_comm (W H : float) :
  (0 <? W) = true -> (0 <? H) = true -> py_min W H = py_min H W.
Proof.
  intros HW HH. unfold py_min.
  destruct (H <? W) eqn:E1, (W <? H) eqn:E2; try reflexivity.
  - rewrite ltb_spec in E1, E2.
    rewrite (SFleb_not_SFltb _ _ (SFltb_SFleb _ _ E1)) in E2. discriminate.
  - apply Prim2SF_inj. rewrite ltb_spec in E1, E2.
    apply SFcompare_Eq_pos; auto using float_pos_spec.
Qed.

Lemma py_min_le_r (W H : float) :
  (0 <? W) = true -> (0 <? H) = true -> (py_min W H <=? H) = true.
Proof.
  intros HW HH. rewrite (py_min_comm W H HW HH). apply py_min_le_l, HH.
Qed.

(** A page lower than 122 points has its smaller side below 500. *)
Lemma low_page_small (W H : float) :
  (0 <? W) = true -> (0 <? H) = true ->
  (H <? 122) = true -> (py_min W H <? 500) = true.
Proof.
  intros HW HH Hn. rewrite (py_min_comm W H HW HH). apply narrow_page_small, Hn.
Qed.

Lemma Prim2SF_nan_sub (r c : float) : Prim2SF r = S754_nan -> Prim2SF (r - c) = S754_nan.
Proof. intros E. rewrite sub_spec, E. reflexivity. Qed.

(** From at least 22, taking off 20 and then 2 does not go below zero. *)
Lemma origin_not_negative (r : float) :
  Prim2SF r = S754_nan \/ (22 <=? r) = true ->
  (r - 20 - 2 <? 0) = false.
Proof.
  intros [E|Hr].
  - rewrite ltb_spec, (Prim2SF_nan_sub _ 2 (Prim2SF_nan_sub _ 20 E)). reflexivity.
  - rewrite leb_spec, Prim2SF_22 in Hr. rewrite ltb_spec, Prim2SF_0.
    rewrite (sub_spec _ 2), Prim2SF_2. apply SFsub_nonneg; try apply Prim2SF_valid; try lia.
    rewrite (sub_spec _ 20), Prim2SF_20.
    apply (SFsub_ge 6192449487634432); try apply Prim2SF_valid; try lia.
    exact Hr.
Qed.

Lemma sub_100_ge_22 (s : float) : (122 <=? s) = true -> (22 <=? s - 100) = true.
Proof.
  rewrite !leb_spec, Prim2SF_122, Prim2SF_22, sub_spec, Prim2SF_100.
  apply (SFsub_ge 8584986789675008); try apply Prim2SF_valid; lia.
Qed.

(** The clamp of the source as a case analysis: the floor, the ceiling, or
    a target above the floor and not above the ceiling. *)
Lemma clamp_cases (t c : float) :
  py_max 100 (py_min t c) = 100 \/
  ((100 <? py_max 100 (py_min t c)) = true /\
   (py_max 100 (py_min t c) = c \/ (c <? py_max 100 (py_min t c)) = false)).
Proof.
  unfold py_max. destruct (100 <? py_min t c) eqn:Hr; [right|left; reflexivity].
  split; [exact Hr|]. unfold py_min. destruct (c <? t) eqn:Hc; auto.
Qed.

(** The origin along a side [s] of the page: negative exactly when the side
    is below 122. *)
Lemma side_origin (pow : float -> float -> float) (W H q s : float) :
  (0 <? W) = true -> (0 <? H) = true ->
  qr_size pow W H = Ok q ->
  (0 <? s) = true -> (py_min W H <=? s) = true ->
  ((s <? 122) = true -> (py_min W H <? 500) = true) ->
  (s - q - 20 - 2 <? 0) = (s <? 122).
Proof.
  intros HW HH Hq Hs Hms Hsmall.
  pose proof (sign_clear_of_pos _ HW) as SW. pose proof (sign_clear_of_pos _ HH) as SH.
  destruct (s <? 122) eqn:Hn.
  - rewrite (qr_size_small_page pow W H SW SH (Hsmall eq_refl)) in Hq.
    injection Hq as <-. exact (abscissa_negative s Hn).
  - assert (H122 : (122 <=? s) = true) by (apply float_not_lt_le; auto).
    destruct (qr_size_value pow W H SW SH) as (p & _ & Hv).
    rewrite Hv in Hq. injection Hq as <-.
    apply origin_not_negative.
    destruct (clamp_cases (p * 0.1) (py_min W H * 0.2)) as [->|[Hr Hc]].
    + right. apply sub_100_ge_22, H122.
    + set (q := py_max 100 (py_min (p * 0.1) (py_min W H * 0.2))) in *.
      destruct (py_min W H <? 500) eqn:H500.
      * exfalso. subst q.
        rewrite (clamp_floor _ _ (scaled_le_100 _ H500)) in Hr. discriminate.
      * rewrite leb_spec, Prim2SF_22, sub_spec.
        apply (wide_sub_ge (Prim2SF (py_min W H))); try apply Prim2SF_valid.
        -- apply float_pos_spec, py_min_pos; assumption.
        -- rewrite <- Prim2SF_500, <- ltb_spec. exact H500.
        -- rewrite <- leb_spec. exact Hms.
        -- rewrite <- Prim2SF_100, <- ltb_spec. exact Hr.
        -- rewrite <- Prim2SF_0_2, <- mul_spec, <- ltb_spec.
           destruct Hc as [E|E]; [left; now rewrite E|right; exact E].
Qed.

(** A size that is computed is at least 100. *)
Lemma qr_size_floor (pow : float -> float -> float) (W H q : float) :
  qr_size pow W H = Ok q -> (100 <=? q) = true.
Proof.
  unfold qr_size. destruct (float_pow pow (W * H) 0.3) as [p|]; cbn; [|discriminate].
  intros [= <-]. destruct (clamp_cases (p * 0.1) (py_min W H * 0.2)) as [->|[Hr _]].
  - reflexivity.
  - apply float_ltb_leb, Hr.
Qed.

(** The power is a complex number exactly on a negative, finite base. *)
Lemma float_pow_complex (pow : float -> float -> float) (v w : float) :
  (v <? 0) = true -> is_infinity v = false -> float_pow pow v w = PyComplex.
Proof.
  intros Hneg Hinf. unfold float_pow. rewrite Hinf, Hneg.
  rewrite ltb_spec, Prim2SF_0 in Hneg. destruct (below_zero_facts _ Hneg) as [Hn Hz].
  unfold is_nan, is_zero. rewrite !eqb_spec, Hn. cbn [negb].
  change (Prim2SF zero) with (S754_zero false). rewrite Hz. reflexivity.
Qed.

Lemma float_pow_float (pow : float -> float -> float) (v w : float) :
  (v <? 0) = false \/ is_infinity v = true -> exists p, float_pow pow v w = PyFloat p.
Proof.
  intros Hcase. unfold float_pow. destruct (is_nan v); [eauto|].
  destruct (is_infinity v); [eauto|]. destruct (is_zero v); [eauto|].
  destruct Hcase as [->|Hinf]; [eauto|discriminate].
Qed.

End PyFloatBounds.

(** ** Sizing *)
Section Sizing.

Import Binary64 Binary64Facts PyFloatFacts Py.
Local Open Scope float_scope.

Variable pow : float -> float -> float.

(** C1: on a page of positive width and height the power [(W*H)**0.3] is
    a float and the computed size is
    [max(100, min(0.1 * (W*H)**0.3, 0.2 * min(W, H)))]: the target clamped
    between the floor 100 and the ceiling [0.2 * min(W, H)]; when the
    ceiling is below the floor, the size is the floor. *)
Theorem qr_size_formula (W H : float) :
  (0 <? W) = true -> (0 <? H) = true ->
  exists p,
    float_pow pow (W * H) 0.3 = PyFloat p /\
    qr_size pow W H = Ok (py_max 100 (py_min (0.1 * p) (0.2 * py_min W H))) /\
    ((0.2 * py_min W H <? 100) = true -> qr_size pow W H = Ok 100).
Proof.
  intros HW HH.
  destruct (qr_size_value pow W H (sign_clear_of_pos _ HW) (sign_clear_of_pos _ HH))
    as (p & Hp & Hq).
  exists p. split; [assumption|].
  rewrite (float_mul_comm 0.1 p), (float_mul_comm 0.2 (py_min W H)).
  split; [assumption|].
  intros Hc. rewrite Hq. f_equal. apply clamp_floor, float_ltb_leb, Hc.
Qed.

(** C7: when the smaller side of the page is at least 500, the size lies
    between 100 and a fifth of the smaller side. *)
Theorem qr_size_within_bounds (W H : float) :
  (500 <=? py_min W H) = true ->
  exists q,
    qr_size pow W H = Ok q /\
    (100 <=? q) = true /\ (q <=? 0.2 * py_min W H) = true.
Proof.
  intros Hm. destruct (sides_of_large_page W H Hm) as [HW HH].
  destruct (qr_size_value pow W H HW HH) as (p & _ & Hq).
  eexists. split; [exact Hq|].
  rewrite (float_mul_comm 0.2 (py_min W H)).
  apply clamp_between, scaled_ge_100, Hm.
Qed.

(** C8 (amended): when the smaller side of the page is below 500, the
    ceiling of a fifth of the smaller side is no more than 100, and the size
    is exactly 100, the floor, on every page whose sides' product is not
    both negative and finite: positive, zero, infinite or not a number. On a
    negative, finite product no size is computed: the power is a complex
    number and [min] raises [TypeError]. *)
Theorem qr_size_floor_wins (W H : float) :
  (py_min W H <? 500) = true ->
  (0.2 * py_min W H <=? 100) = true /\
  ((W * H <? 0) = false \/ is_infinity (W * H) = true ->
   qr_size pow W H = Ok 100) /\
  ((W * H <? 0) = true /\ is_infinity (W * H) = false ->
   qr_size pow W H
     = Raise (TypeError "'<' not supported between instances of 'float' and 'complex'")).
Proof.
  intros Hm.
  assert (Hc : (py_min W H * 0.2 <=? 100) = true) by apply scaled_le_100, Hm.
  split; [rewrite float_mul_comm; exact Hc|]. split.
  - intros Hcase.
    destruct (PyFloatBounds.float_pow_float pow (W * H) 0.3 Hcase) as [p Hp].
    unfold qr_size. rewrite Hp. cbn [number_mul number_min bind].
    f_equal. apply clamp_floor, Hc.
  - intros [Hneg Hinf]. unfold qr_size.
    rewrite (PyFloatBounds.float_pow_complex pow (W * H) 0.3 Hneg Hinf). reflexivity.
Qed.

End Sizing.

(** US Letter, 612 by 792 points. *)
Lemma qr_size_formula_witness :
  (0 <? 612)%float = true /\ (0 <? 792)%float = true /\
  exists p,
    Py.float_pow Demo.pow_0_3 (612 * 792)%float 0.3%float = Py.PyFloat p /\
    qr_size Demo.pow_0_3 612 792
      = Py.Ok (Py.py_max 100 (Py.py_min (0.1 * p) (0.2 * Py.py_min 612 792)))%float.
Proof.
  split; [reflexivity|]. split; [reflexivity|].
  destruct (qr_size_formula Demo.pow_0_3 612 792 eq_refl eq_refl) as (p & Hp & Hq & _).
  exists p. split; [exact Hp|exact Hq].
Defined.

(** A banner of 1000000 by 1000000 points: the target, about 398, is the
    size. *)
Lemma qr_size_within_bounds_witness :
  (500 <=? Py.py_min 1000000 1000000)%float = true /\
  exists q,
    qr_size Demo.pow_0_3 1000000 1000000 = Py.Ok q /\
    (100 <=? q)%float = true /\ (q <=? 0.2 * Py.py_min 1000000 1000000)%float = true.
Proof.
  split; [reflexivity|].
  apply (qr_size_within_bounds Demo.pow_0_3 1000000 1000000); reflexivity.
Defined.

(** A 200 by 200 point page: the ceiling is 40, the size 100. *)
Lemma qr_size_floor_wins_witness :
  (Py.py_min 200 200 <? 500)%float = true /\
  (0.2 * Py.py_min 200 200 <=? 100)%float = true /\
  qr_size Demo.pow_0_3 200 200 = Py.Ok 100%float.
Proof.
  split; [reflexivity|].
  destruct (qr_size_floor_wins Demo.pow_0_3 200 200 eq_refl) as (Hc & Hq & _).
  split; [exact Hc|]. apply Hq. left. reflexivity.
Defined.

(** A page whose media box is written right to left, 100 points wide: its
    width is read as -100. The smaller side is below 500 and no size is
    computed. *)
Lemma qr_size_floor_wins_counterexample :
  (Py.py_min (-100) 100 <? 500)%float = true /\
  qr_size Demo.pow_0_3 (-100) 100
    = Py.Raise
        (Py.TypeError "'<' not supported between instances of 'float' and 'complex'") /\
  qr_size Demo.pow_0_3 (-100) 100 <> Py.Ok 100%float.
Proof.
  split; [reflexivity|]. split; [reflexivity|discriminate].
Qed.
(** ** Placement *)
Section Placement.

Import PyFloatFacts Py.
Local Open Scope float_scope.

Variable L : Libraries.
Variable drawing : Drawing L.


(** C10: on a page of positive width and height, the width is below
    [qr_size + 22] exactly when it is below 122; on such a page the size is
    100, the abscissa [W - qr_size - 20 - 2] is negative, and the canvas
    draws the white square and the QR drawing at that abscissa all the
    same, nothing being clamped to the page. *)
Theorem overlay_past_left_edge (W H q : float) :
  (0 <? W) = true -> (0 <? H) = true ->
  qr_size (libm_pow L) W H = Ok q ->
  let x := W - q - 20 - 2 in
  let y := H - q - 20 - 2 in
  ((W <? q + 22) = true <-> (W <? 122) = true) /\
  ((W <? q + 22) = true ->
   q = 100 /\
   (x <? 0) = true /\
   overlay_canvas L drawing W H
     = Ok {| pagesize := (W, H);
             ops := [ SetFillColorRGB 1 1 1;
                      Rect (x - 2) (y - 2) (q + 4) (q + 4) 1 0;
                      RenderDraw drawing x y ] |}).
Proof.
  intros HW HH Hq x y. split; [split|].
  - intros Hlt. exact (proj2 (narrow_of_overlap _ W H q HW HH Hq Hlt)).
  - intros Hn.
    pose proof (qr_size_small_page (libm_pow L) W H (sign_clear_of_pos _ HW)
                  (sign_clear_of_pos _ HH) (narrow_page_small W H Hn)) as Hq'.
    rewrite Hq' in Hq. injection Hq as <-. exact Hn.
  - intros Hlt. destruct (narrow_of_overlap _ W H q HW HH Hq Hlt) as [E Hn].
    split; [exact E|]. split.
    + subst x. rewrite E. exact (abscissa_negative W Hn).
    + unfold overlay_canvas. rewrite Hq. reflexivity.
Qed.

End Placement.


(** A 100 by 100 point page: the image sits at (-22, -22). *)
Lemma overlay_past_left_edge_witness :
  (0 <? 100)%float = true /\
  qr_size (libm_pow Demo.libraries) 100 100 = Py.Ok 100%float /\
  (100 <? 100 + 22)%float = true /\
  (100 - 100 - 20 - 2 <? 0)%float = true /\
  overlay_canvas Demo.libraries [] 100 100
    = Py.Ok {| pagesize := (100, 100)%float;
               ops := [ SetFillColorRGB 1 1 1;
                        Rect (-24) (-24) 104 104 1 0;
                        RenderDraw [] (-22) (-22) ]%float |}.
Proof.
  pose proof (overlay_past_left_edge Demo.libraries [] 100 100 100
                eq_refl eq_refl eq_refl) as (_ & Hover).
  destruct (Hover eq_refl) as (_ & Hx & Hc).
  split; [reflexivity|]. split; [reflexivity|]. split; [reflexivity|].
  split; [exact Hx|exact Hc].
Defined.

(** ** The result monad *)
Module PyFacts.

Import Py.
Local Open Scope py_scope.

Lemma bind_Ok {A B : Type} (m : result A) (k : A -> result B) (b : B) :
  Py.bind m k = Ok b -> exists a, m = Ok a /\ k a = Ok b.
Proof. destruct m as [a|e]; cbn; [eauto|discriminate]. Qed.

Lemma try_reraise {A : Type} (m : result A) : try_except m log_and_reraise = m.
Proof. destruct m; reflexivity. Qed.

Lemma map_result_Ok {A B : Type} (f : A -> result B) (l : list A) (bs : list B) :
  map_result f l = Ok bs ->
  List.length bs = List.length l /\
  forall i a, nth_error l i = Some a ->
    exists b, f a = Ok b /\ nth_error bs i = Some b.
Proof.
  revert bs. induction l as [|a l IH]; cbn [map_result]; intros bs H.
  - injection H as <-. split; [reflexivity|]. intros [|i] a; discriminate.
  - apply bind_Ok in H as (b & Hb & H). apply bind_Ok in H as (bs' & Hbs & H).
    injection H as <-. destruct (IH _ Hbs) as [Hlen Hnth].
    split; [cbn; congruence|].
    intros [|i] a' Hi; cbn in Hi |- *.
    + injection Hi as <-. eauto.
    + eauto.
Qed.

End PyFacts.

(** ** The validator *)
Section Validator.

Import Py PyFacts.
Local Open Scope py_scope.

Variable L : Libraries.

Lemma validate_pdf_true (pdf_bytes : bytes) :
  validate_pdf L pdf_bytes = Ok true <->
  exists reader n p,
    PdfReader L pdf_bytes (Some false) = Ok reader /\
    pages_len reader = Ok n /\ n <> O /\
    pages_getitem reader 0 = Ok p.
Proof.
  unfold validate_pdf. split.
  - destruct (PdfReader L pdf_bytes (Some false)) as [reader|e]; cbn; [|discriminate].
    destruct (pages_len reader) as [n|e] eqn:Hn; cbn; [|discriminate].
    destruct n as [|n]; cbn; [discriminate|].
    destruct (pages_getitem reader 0) as [p|e] eqn:Hp; cbn; [|discriminate].
    intros _. exists reader, (S n), p. repeat split; auto.
  - intros (reader & n & p & -> & Hn & Hn0 & Hp). cbn. rewrite Hn. cbn.
    destruct n as [|n]; [contradiction|]. cbn. rewrite Hp. reflexivity.
Qed.

Lemma validate_pdf_returns (pdf_bytes : bytes) :
  exists v, validate_pdf L pdf_bytes = Ok v.
Proof.
  unfold validate_pdf.
  destruct (PdfReader L pdf_bytes (Some false)) as [reader|e]; cbn; [|eauto].
  destruct (pages_len reader) as [n|e]; cbn; [|eauto].
  destruct n as [|n]; cbn; [eauto|].
  destruct (pages_getitem reader 0) as [p|e]; cbn; eauto.
Qed.

Lemma validate_pdf_false (pdf_bytes : bytes) :
  (forall reader n p,
      PdfReader L pdf_bytes (Some false) = Ok reader ->
      pages_len reader = Ok n -> n <> O ->
      pages_getitem reader 0 = Ok p -> False) ->
  validate_pdf L pdf_bytes = Ok false.
Proof.
  intros Hno. destruct (validate_pdf_returns pdf_bytes) as [[|] Hv]; [|exact Hv].
  apply validate_pdf_true in Hv as (reader & n & p & H1 & H2 & H3 & H4).
  destruct (Hno reader n p H1 H2 H3 H4).
Qed.

(** C5: [validate_pdf] returns a boolean on every buffer and raises
    nothing.  It returns false on the empty buffer (which the parser
    rejects), whenever the lenient parse fails, on a document with no page
    and when the first page cannot be fetched; it returns true in every
    other case, that is when the lenient parse gives a document with at
    least one page whose first page can be fetched. *)
Theorem validate_pdf_total
    (empty_rejected : exists e, PdfReader L [] (Some false) = Raise e) :
  (forall pdf_bytes, exists v, validate_pdf L pdf_bytes = Ok v) /\
  validate_pdf L [] = Ok false /\
  (forall pdf_bytes e,
      PdfReader L pdf_bytes (Some false) = Raise e ->
      validate_pdf L pdf_bytes = Ok false) /\
  (forall pdf_bytes reader,
      PdfReader L pdf_bytes (Some false) = Ok reader ->
      pages_len reader = Ok O ->
      validate_pdf L pdf_bytes = Ok false) /\
  (forall pdf_bytes reader e,
      PdfReader L pdf_bytes (Some false) = Ok reader ->
      pages_getitem reader 0 = Raise e ->
      validate_pdf L pdf_bytes = Ok false) /\
  (forall pdf_bytes,
      validate_pdf L pdf_bytes = Ok true <->
      exists reader n p,
        PdfReader L pdf_bytes (Some false) = Ok reader /\
        pages_len reader = Ok n /\ n <> O /\
        pages_getitem reader 0 = Ok p).
Proof.
  assert (Hraise : forall pdf_bytes e,
             PdfReader L pdf_bytes (Some false) = Raise e ->
             validate_pdf L pdf_bytes = Ok false).
  { intros b e He. apply validate_pdf_false. intros reader n p H1. congruence. }
  split; [exact validate_pdf_returns|].
  split; [destruct empty_rejected as [e He]; exact (Hraise _ _ He)|].
  split; [exact Hraise|].
  split; [|split; [|exact validate_pdf_true]].
  - intros b reader Hr Hn. apply validate_pdf_false.
    intros reader' n p H1 H2 H3. congruence.
  - intros b reader e Hr Hp. apply validate_pdf_false.
    intros reader' n p H1 H2 H3 H4. congruence.
Qed.

End Validator.

(** The empty buffer, in the small world. *)
Lemma validate_pdf_total_witness :
  (exists e, PdfReader Demo.libraries [] (Some false) = Py.Raise e) /\
  validate_pdf Demo.libraries [] = Py.Ok false /\
  validate_pdf Demo.libraries (Demo.header ++ ["6"%byte; "2"%byte])%list = Py.Ok true.
Proof.
  assert (He : exists e, PdfReader Demo.libraries [] (Some false) = Py.Raise e)
    by (eexists; reflexivity).
  split; [exact He|].
  split; [exact (proj1 (proj2 (validate_pdf_total Demo.libraries He)))|reflexivity].
Defined.

(** ** The encoder *)
Section Encoder.

Import Py PyFacts.
Local Open Scope py_scope.

Variable L : Libraries.

Lemma best_fit_Some (f : nat -> bool) (fuel start v : nat) :
  best_fit f fuel start = Some v ->
  (start <= v < start + fuel)%nat /\ f v = true /\
  forall u, (start <= u < v)%nat -> f u = false.
Proof.
  revert start. induction fuel as [|fuel IH]; intros start; cbn [best_fit].
  - discriminate.
  - destruct (f start) eqn:Hs.
    + intros [= <-]. split; [lia|]. split; [assumption|]. intros u Hu. lia.
    + intros H. destruct (IH _ H) as (Hr & Hv & Hmin).
      split; [lia|]. split; [assumption|].
      intros u Hu. destruct (Nat.eq_dec u start) as [->|Hne]; [assumption|].
      apply Hmin. lia.
Qed.

Lemma best_fit_None (f : nat -> bool) (fuel start : nat) :
  best_fit f fuel start = None ->
  forall u, (start <= u < start + fuel)%nat -> f u = false.
Proof.
  revert start. induction fuel as [|fuel IH]; intros start; cbn [best_fit].
  - intros _ u Hu. lia.
  - destruct (f start) eqn:Hs; [discriminate|].
    intros H u Hu. destruct (Nat.eq_dec u start) as [->|Hne]; [assumption|].
    apply (IH _ H). lia.
Qed.

(** C9: the encoder asks for error-correction level L, a border of 4
    modules and a box size of 10, and renders with the path-based SVG
    factory the symbol of the smallest version, from 1 to 40, that holds
    the text at level L; when no version holds it, the encoder raises the
    library's overflow error and returns no image. *)
Theorem generate_qr_code_svg_fit (content : string) :
  let symbol v := {| version := v;
                     error_correction_level := ERROR_CORRECT_L;
                     box_size := 10;
                     border := 4;
                     data_list := [content] |} in
  (exists v,
      (1 <= v <= 40)%nat /\
      holds L v ERROR_CORRECT_L [content] = true /\
      (forall u, (1 <= u < v)%nat -> holds L u ERROR_CORRECT_L [content] = false) /\
      generate_qr_code_svg L content = make_image L SvgPathImage (symbol v))
  \/
  ((forall v, (1 <= v <= 40)%nat -> holds L v ERROR_CORRECT_L [content] = false) /\
   generate_qr_code_svg L content = Raise DataOverflowError).
Proof.
  intros symbol. unfold generate_qr_code_svg. rewrite try_reraise.
  unfold make, add_data. cbn [version error_correction_level data_list app].
  change (41 - 1)%nat with 40%nat.
  destruct (best_fit _ 40 1) as [v|] eqn:Hfit.
  - left. exists v. destruct (best_fit_Some _ _ _ _ Hfit) as (Hr & Hv & Hmin).
    split; [lia|]. split; [assumption|]. split; [assumption|reflexivity].
  - right. split; [|reflexivity].
    intros v Hv. apply (best_fit_None _ _ _ Hfit). lia.
Qed.

End Encoder.

(** ** The assembler *)
Section Assembler.

Import Py PyFacts.
Local Open Scope py_scope.

Variable L : Libraries.

(** C4: when [add_qr_to_pdf] succeeds on a document of [N] pages, [N] is
    at least 1, the writer receives exactly [N] pages and serialises them;
    its first page is the input's first page merged with the overlay, and
    every later page is the input page of the same position, untouched. *)
Theorem pages_pass_through (pdf_bytes : bytes) (qr_content : string) (output : bytes) :
  add_qr_to_pdf L pdf_bytes qr_content = Ok output ->
  exists (reader : Reader (Page L)) (N : nat) (pages : list (Page L)),
    PdfReader L pdf_bytes (Some false) = Ok reader /\
    pages_len reader = Ok N /\ (1 <= N)%nat /\
    add_qr_to_pdf_pages L pdf_bytes qr_content = Ok pages /\
    PdfWriter_write L pages = Ok output /\
    List.length pages = N /\
    (exists first overlay merged,
        get_page reader 0 = Ok first /\
        merge_page L first overlay = Ok merged /\
        nth_error pages 0 = Some merged) /\
    (forall i, (1 <= i < N)%nat ->
       exists p, get_page reader i = Ok p /\ nth_error pages i = Some p).
Proof.
  unfold add_qr_to_pdf. rewrite try_reraise. intros H.
  apply bind_Ok in H as (pages & Hpages & Hwrite).
  pose proof Hpages as Hp. unfold add_qr_to_pdf_pages in Hp.
  apply bind_Ok in Hp as (valid & _ & Hp).
  destruct (negb valid); [discriminate|].
  apply bind_Ok in Hp as (reader & Hreader & Hp).
  apply bind_Ok in Hp as (N & HN & Hp).
  destruct (Nat.eqb_spec N 0) as [|HN0]; [discriminate|].
  apply bind_Ok in Hp as (first & Hfirst & Hp).
  apply bind_Ok in Hp as (page_width & _ & Hp).
  apply bind_Ok in Hp as (page_height & _ & Hp).
  apply bind_Ok in Hp as (qr_svg & _ & Hp).
  apply bind_Ok in Hp as (drawing & _ & Hp).
  apply bind_Ok in Hp as (can & _ & Hp).
  apply bind_Ok in Hp as (packet & _ & Hp).
  apply bind_Ok in Hp as (qr_pdf & _ & Hp).
  apply bind_Ok in Hp as (overlay & _ & Hp).
  apply bind_Ok in Hp as (merged & Hmerged & Hp).
  apply bind_Ok in Hp as (rest & Hrest & Hp).
  injection Hp as <-.
  unfold pages_from in Hrest. unfold pages_len in HN. rewrite HN in Hrest. cbn in Hrest.
  destruct (map_result_Ok _ _ _ Hrest) as [Hlen Hnth]. rewrite length_seq in Hlen.
  unfold pages_getitem in Hfirst. rewrite HN in Hfirst. cbn [Py.bind] in Hfirst.
  destruct (Nat.ltb_spec 0 N); [|lia].
  exists reader, N, (merged :: rest).
  split; [assumption|]. split; [assumption|]. split; [lia|].
  split; [assumption|]. split; [assumption|]. split; [cbn; lia|]. split.
  - exists first, overlay, merged. auto.
  - intros i Hi. destruct i as [|i]; [lia|]. cbn [nth_error].
    apply Hnth. rewrite nth_error_nth' with (d := O) by (rewrite length_seq; lia).
    rewrite seq_nth by lia. reflexivity.
Qed.

End Assembler.

(** A three-page document in the small world. *)
Lemma pages_pass_through_witness :
  exists output,
    add_qr_to_pdf Demo.libraries
      (Demo.header ++ ["6"%byte; "2"%byte; "9"%byte])%list "hello" = Py.Ok output /\
    exists pages,
      add_qr_to_pdf_pages Demo.libraries
        (Demo.header ++ ["6"%byte; "2"%byte; "9"%byte])%list "hello" = Py.Ok pages /\
      List.length pages = 3%nat.
Proof.
  eexists. split; [reflexivity|].
  destruct (pages_pass_through Demo.libraries
              (Demo.header ++ ["6"%byte; "2"%byte; "9"%byte])%list "hello" _ eq_refl)
    as (reader & N & pages & Hr & HN & _ & Hp & _ & Hlen & _).
  exists pages. split; [exact Hp|].
  cbv in Hr. injection Hr as <-. cbv in HN. injection HN as <-. exact Hlen.
Defined.

(** ** The endpoint *)
Section Endpoint.

Import Py PyFacts.
Local Open Scope py_scope.
Local Open Scope string_scope.

Variable L : Libraries.

Lemma pdf_bytes_of_upload_eq (pdf_file : UploadFile) :
  pdf_bytes_of_upload pdf_file
  = (firstn 2048 (skipn (position pdf_file) (file pdf_file)) ++ file pdf_file)%list.
Proof. reflexivity. Qed.

(** What the endpoint does once the first chunk has been sniffed as a PDF. *)
Lemma endpoint_after_sniff (pdf_file : UploadFile) (qr_content : string) :
  magic_from_buffer L (fst (upload_read pdf_file (Some 2048%nat)))
    = Ok "application/pdf" ->
  add_qr_to_pdf_endpoint L pdf_file qr_content
  = try_except
      (result_bytes <- add_qr_to_pdf L (pdf_bytes_of_upload pdf_file) qr_content ;;
       new_StreamingResponse L result_bytes "application/pdf"
         [("Content-Disposition",
           "attachment; filename=modified_" ++ filename pdf_file)])
      (fun e => Raise (HTTPException 500 (exn_str L e))).
Proof.
  intros Hs. unfold add_qr_to_pdf_endpoint, pdf_bytes_of_upload.
  cbn [upload_read fst] in *. rewrite Hs. reflexivity.
Qed.

(** C3, as the code has it: an upload whose first chunk is not sniffed as a
    PDF, and an upload that the validator refuses, both raise inside the
    endpoint's [try] an [HTTPException] of status 400 with its message; the
    endpoint's own handler catches it and answers with status 500, the
    detail being that exception's text. *)
Theorem rejections_answered_with_500
    (pdf_file : UploadFile) (qr_content : string) (detail : string) :
  ((exists content_type,
       magic_from_buffer L (fst (upload_read pdf_file (Some 2048%nat))) = Ok content_type /\
       content_type <> "application/pdf") /\
   detail = "Uploaded file is not a PDF")
  \/
  (magic_from_buffer L (fst (upload_read pdf_file (Some 2048%nat))) = Ok "application/pdf" /\
   validate_pdf L (pdf_bytes_of_upload pdf_file) = Ok false /\
   detail = "Invalid or corrupted PDF file") ->
  add_qr_to_pdf_endpoint L pdf_file qr_content
    = Raise (HTTPException 500 (exn_str L (HTTPException 400 detail))) /\
  status_of (add_qr_to_pdf_endpoint L pdf_file qr_content) = 500%Z.
Proof.
  intros H.
  assert (E : add_qr_to_pdf_endpoint L pdf_file qr_content
              = Raise (HTTPException 500 (exn_str L (HTTPException 400 detail)))).
  { destruct H as [[(ct & Hs & Hne) ->]|(Hs & Hv & ->)].
    - unfold add_qr_to_pdf_endpoint. cbn [upload_read fst] in *. rewrite Hs.
      cbn [Py.bind]. apply String.eqb_neq in Hne. rewrite Hne. reflexivity.
    - rewrite (endpoint_after_sniff _ _ Hs).
      unfold add_qr_to_pdf, add_qr_to_pdf_pages. rewrite Hv. reflexivity. }
  rewrite E. split; reflexivity.
Qed.

(** C6, as the code has it: for a fresh upload that is not empty, the
    buffer handed to [add_qr_to_pdf] (and so to the validator) is the first
    chunk of at most 2048 bytes followed by the whole file again, which is
    longer than the file. *)
Theorem upload_buffer_repeats_first_chunk (pdf_file : UploadFile) (qr_content : string) :
  position pdf_file = O -> file pdf_file <> [] ->
  pdf_bytes_of_upload pdf_file
    = (firstn 2048 (file pdf_file) ++ file pdf_file)%list /\
  pdf_bytes_of_upload pdf_file <> file pdf_file /\
  (magic_from_buffer L (firstn 2048 (file pdf_file)) = Ok "application/pdf" ->
   add_qr_to_pdf_endpoint L pdf_file qr_content
   = try_except
       (result_bytes <-
          add_qr_to_pdf L (firstn 2048 (file pdf_file) ++ file pdf_file)%list qr_content ;;
        new_StreamingResponse L result_bytes "application/pdf"
          [("Content-Disposition",
            "attachment; filename=modified_" ++ filename pdf_file)])
       (fun e => Raise (HTTPException 500 (exn_str L e)))).
Proof.
  intros Hpos Hne.
  assert (E : pdf_bytes_of_upload pdf_file
              = (firstn 2048 (file pdf_file) ++ file pdf_file)%list).
  { rewrite pdf_bytes_of_upload_eq, Hpos. reflexivity. }
  split; [exact E|]. split.
  - rewrite E. intros Heq. apply (f_equal (@List.length _)) in Heq.
    rewrite length_app, length_firstn in Heq.
    destruct (file pdf_file) as [|b l]; [contradiction|]. cbn [List.length] in Heq. lia.
  - intros Hs. rewrite <- E. apply endpoint_after_sniff.
    cbn [upload_read fst]. rewrite Hpos. exact Hs.
Qed.

End Endpoint.

(** A JPEG upload in the small world. *)
Lemma rejections_answered_with_500_witness :
  status_of
    (add_qr_to_pdf_endpoint Demo.libraries
       {| filename := "photo.jpg"; file := ["J"; "F"; "I"; "F"]%byte; position := 0 |}
       "hello") = 500%Z.
Proof.
  refine (proj2 (rejections_answered_with_500 Demo.libraries
                   {| filename := "photo.jpg"; file := ["J"; "F"; "I"; "F"]%byte;
                      position := 0 |}
                   "hello" "Uploaded file is not a PDF" _)).
  left. split; [|reflexivity].
  exists "application/octet-stream". split; [reflexivity|discriminate].
Defined.

(** A one-page upload in the small world: five bytes become ten. *)
Lemma upload_buffer_repeats_first_chunk_witness :
  pdf_bytes_of_upload
    {| filename := "a.pdf"; file := (Demo.header ++ ["6"%byte])%list; position := 0 |}
  = (Demo.header ++ ["6"%byte] ++ Demo.header ++ ["6"%byte])%list.
Proof.
  refine (proj1 (upload_buffer_repeats_first_chunk Demo.libraries
                   {| filename := "a.pdf"; file := (Demo.header ++ ["6"%byte])%list;
                      position := 0 |} "hello" eq_refl _)).
  discriminate.
Defined.

(** ** More on sizing and placement *)
Section SizingBounds.

Import Binary64 Binary64Facts Binary64Bounds PyFloatFacts PyFloatBounds Py.
Local Open Scope float_scope.

Variable pow : float -> float -> float.

(** X1: whatever the page, a size that is computed is at least 100. *)
Theorem qr_size_at_least_100 (W H q : float) :
  qr_size pow W H = Ok q -> (100 <=? q) = true.
Proof.
  unfold qr_size. destruct (float_pow pow (W * H) 0.3) as [p|]; cbn; [|discriminate].
  intros [= <-]. unfold py_max.
  destruct (100 <? py_min (p * 0.1) (py_min W H * 0.2)) eqn:Hr.
  - apply float_ltb_leb, Hr.
  - reflexivity.
Qed.

(** X2: on a page of positive width and height the size is at most the
    larger of the floor 100 and the ceiling [0.2 * min(W, H)]. *)
Theorem qr_size_at_most_cap (W H q : float) :
  (0 <? W) = true -> (0 <? H) = true ->
  qr_size pow W H = Ok q ->
  (q <=? py_max 100 (0.2 * py_min W H)) = true.
Proof.
  intros HW HH Hq.
  destruct (qr_size_value pow W H (sign_clear_of_pos _ HW) (sign_clear_of_pos _ HH))
    as (p & _ & Hv).
  rewrite Hv in Hq. injection Hq as <-. rewrite (float_mul_comm 0.2).
  set (c := py_min W H * 0.2).
  assert (Hc : (c <=? c) = true).
  { subst c. rewrite leb_spec, mul_spec, Prim2SF_0_2.
    apply mul_0_2_number, float_pos_spec, py_min_pos; assumption. }
  destruct (clamp_cases (p * 0.1) c) as [->|[Hr Hcase]].
  - unfold py_max. destruct (100 <? c) eqn:E; [apply float_ltb_leb, E|reflexivity].
  - set (q := py_max 100 (py_min (p * 0.1) c)) in *.
    assert (Hqc : (q <=? c) = true).
    { destruct Hcase as [->|E]; [exact Hc|].
      rewrite leb_spec in *. rewrite ltb_spec in E. apply SFleb_total; [|exact E].
      intros N. destruct (SFcompare_None _ _ N) as [E'|E']; rewrite E' in *.
      - discriminate.
      - rewrite ltb_spec, E' in Hr. destruct (Prim2SF 100); discriminate. }
    assert (H100 : (100 <? c) = true).
    { rewrite ltb_spec, leb_spec in *. exact (SFltb_leb_trans _ _ _ Hr Hqc). }
    unfold py_max at 1. rewrite H100. exact Hqc.
Qed.

(** X3: the sizing fails, with the [TypeError] of comparing a complex
    number, exactly when the product of the two sides is negative and finite;
    on every other page it returns a size. *)
Theorem qr_size_type_error (W H : float) :
  ((W * H <? 0) = true /\ is_infinity (W * H) = false ->
   qr_size pow W H
     = Raise (TypeError "'<' not supported between instances of 'float' and 'complex'")) /\
  ((W * H <? 0) = false \/ is_infinity (W * H) = true ->
   exists q, qr_size pow W H = Ok q).
Proof.
  unfold qr_size, float_pow. split.
  - intros [Hneg Hinf]. rewrite Hinf, Hneg.
    rewrite ltb_spec, Prim2SF_0 in Hneg. destruct (below_zero_facts _ Hneg) as [Hn Hz].
    unfold is_nan, is_zero. rewrite !eqb_spec, Hn. cbn [negb].
    change (Prim2SF zero) with (S754_zero false). rewrite Hz. reflexivity.
  - intros Hcase. destruct (is_nan (W * H)); [cbn; eauto|].
    destruct (is_infinity (W * H)); [cbn; eauto|].
    destruct (is_zero (W * H)); [cbn; eauto|].
    destruct Hcase as [->|Hinf]; [cbn; eauto|discriminate].
Qed.

(** X4: turning a page of positive width and height by a quarter turn
    leaves the size as it is. *)
Theorem qr_size_rotation (W H : float) :
  (0 <? W) = true -> (0 <? H) = true -> qr_size pow H W = qr_size pow W H.
Proof.
  intros HW HH. unfold qr_size.
  now rewrite (float_mul_comm H W), (py_min_comm H W HH HW).
Qed.

(** X5: on a page of positive width and height the QR image's left edge
    [W - qr_size - 20 - 2] is negative exactly when the width is below 122,
    and its lower edge [H - qr_size - 20 - 2] exactly when the height is
    below 122. *)
Theorem origin_off_page (W H q : float) :
  (0 <? W) = true -> (0 <? H) = true ->
  qr_size pow W H = Ok q ->
  (W - q - 20 - 2 <? 0) = (W <? 122) /\
  (H - q - 20 - 2 <? 0) = (H <? 122).
Proof.
  intros HW HH Hq. split.
  - apply (side_origin pow W H q W); auto using py_min_le_l, narrow_page_small.
  - apply (side_origin pow W H q H); auto using py_min_le_r, low_page_small.
Qed.

End SizingBounds.

(** The 1000000 point banner: the size, about 398, is at least 100. *)
Lemma qr_size_at_least_100_witness :
  exists q,
    qr_size Demo.pow_0_3 1000000 1000000 = Py.Ok q /\ (100 <=? q)%float = true.
Proof.
  eexists. split; [reflexivity|].
  apply (qr_size_at_least_100 Demo.pow_0_3 1000000 1000000). reflexivity.
Defined.

(** A 600 by 100000000 point strip: the target is above the ceiling 120,
    which is the size. *)
Lemma qr_size_at_most_cap_witness :
  qr_size Demo.pow_0_3 600 100000000 = Py.Ok 120%float /\
  (120 <=? Py.py_max 100 (0.2 * Py.py_min 600 100000000))%float = true.
Proof.
  split; [reflexivity|].
  apply (qr_size_at_most_cap Demo.pow_0_3 600 100000000 120); reflexivity.
Defined.

(** US Letter, portrait and landscape. *)
Lemma qr_size_rotation_witness :
  qr_size Demo.pow_0_3 792 612 = qr_size Demo.pow_0_3 612 792.
Proof. apply (qr_size_rotation Demo.pow_0_3 612 792); reflexivity. Defined.

(** A 100 by 792 point strip: off the page to the left, not below. *)
Lemma origin_off_page_witness :
  (100 - 100 - 20 - 2 <? 0)%float = true /\
  (792 - 100 - 20 - 2 <? 0)%float = false.
Proof.
  exact (origin_off_page Demo.pow_0_3 100 792 100 eq_refl eq_refl eq_refl).
Defined.

(** ** More on the pipeline and the endpoint *)
Section PipelineErrors.

Import Py PyFacts.
Local Open Scope py_scope.
Local Open Scope string_scope.

Variable L : Libraries.

Lemma bind_Raise {A B : Type} (m : result A) (k : A -> result B) (e : exn) :
  Py.bind m k = Raise e -> m = Raise e \/ exists a, m = Ok a /\ k a = Raise e.
Proof. destruct m as [a|e']; cbn; [eauto|intros [= ->]; auto]. Qed.

Lemma map_result_Raise {A B : Type} (f : A -> result B) (l : list A) (e : exn) :
  map_result f l = Raise e -> exists a, In a l /\ f a = Raise e.
Proof.
  induction l as [|a l IH]; cbn [map_result]; [discriminate|].
  intros H. apply bind_Raise in H as [H|(b & Hb & H)].
  - exists a. split; [left; reflexivity|assumption].
  - apply bind_Raise in H as [H|(bs & Hbs & H)]; [|discriminate].
    destruct (IH H) as (a' & Hin & Ha'). exists a'. split; [right; assumption|assumption].
Qed.

Lemma generate_qr_code_svg_raises (content : string) :
  (forall factory qr, raises_library_errors (make_image L factory qr)) ->
  raises_library_errors (generate_qr_code_svg L content).
Proof.
  intros Hq e. unfold generate_qr_code_svg. rewrite try_reraise. cbv zeta. intros H.
  apply bind_Raise in H as [H|(qr & _ & H)].
  - unfold make in H. cbn [version] in H.
    destruct (best_fit _ _ _); [discriminate|]. injection H as <-. exact I.
  - exact (Hq _ _ _ H).
Qed.

Lemma overlay_canvas_raises (drawing : Drawing L) (W H : float) :
  raises_library_errors (overlay_canvas L drawing W H).
Proof.
  intros e. unfold overlay_canvas, qr_size. cbv zeta.
  destruct (number_mul _ _) as [t|]; cbn; [discriminate|]. intros [= <-]. exact I.
Qed.

Lemma pages_getitem_raises (reader : Reader (Page L)) (i : nat) :
  raises_library_errors (num_pages reader) ->
  (forall j, raises_library_errors (get_page reader j)) ->
  raises_library_errors (pages_getitem reader i).
Proof.
  intros Hn Hg e. unfold pages_getitem.
  destruct (num_pages reader) as [n|e'] eqn:En; cbn [Py.bind].
  - destruct (i <? n)%nat; [exact (Hg i e)|]. intros [= <-]. exact I.
  - intros [= <-]. apply Hn. reflexivity.
Qed.

Lemma pages_from_raises (reader : Reader (Page L)) (start : nat) :
  raises_library_errors (num_pages reader) ->
  (forall j, raises_library_errors (get_page reader j)) ->
  raises_library_errors (pages_from reader start).
Proof.
  intros Hn Hg e. unfold pages_from.
  destruct (num_pages reader) as [n|e'] eqn:En; cbn [Py.bind].
  - intros H. destruct (map_result_Raise _ _ _ H) as (j & _ & Hj). exact (Hg _ _ Hj).
  - intros [= <-]. apply Hn. reflexivity.
Qed.

Lemma add_qr_to_pdf_raises (Hquiet : quiet L)
    (pdf_bytes : bytes) (qr_content : string) (e : exn) :
  add_qr_to_pdf L pdf_bytes qr_content = Raise e ->
  (e = HTTPException 400 "Invalid or corrupted PDF file" /\
   validate_pdf L pdf_bytes = Ok false)
  \/
  (library_error e /\ validate_pdf L pdf_bytes = Ok true).
Proof.
  destruct Hquiet as (Qparse & Qreader & Qw & Qh & Qmerge & Qwrite & Qimage & Qsvg & Qsave).
  unfold add_qr_to_pdf. rewrite try_reraise. intros H.
  apply bind_Raise in H as [H|(pages & Hpages & H)];
    [|right; split; [exact (Qwrite _ _ H)|]].
  - unfold add_qr_to_pdf_pages in H.
    destruct (validate_pdf_returns L pdf_bytes) as [[|] Hv]; rewrite Hv in H;
      cbn [Py.bind negb] in H.
    + right. split; [|exact Hv].
      apply bind_Raise in H as [H|(reader & Hreader & H)]; [exact (Qparse _ _ _ H)|].
      destruct (Qreader _ _ _ Hreader) as [Qn Qg].
      apply bind_Raise in H as [H|(n & Hn & H)]; [exact (Qn _ H)|].
      destruct (Nat.eqb_spec n 0) as [->|Hn0].
      { exfalso. apply validate_pdf_true in Hv as (r' & n' & p' & H1 & H2 & H3 & _).
        unfold pages_len in *. congruence. }
      apply bind_Raise in H as [H|(first & _ & H)];
        [exact (pages_getitem_raises _ _ Qn Qg _ H)|].
      apply bind_Raise in H as [H|(w & _ & H)]; [exact (Qw _ _ H)|].
      apply bind_Raise in H as [H|(h & _ & H)]; [exact (Qh _ _ H)|].
      apply bind_Raise in H as [H|(svg & _ & H)];
        [exact (generate_qr_code_svg_raises _ Qimage _ H)|].
      apply bind_Raise in H as [H|(drawing & _ & H)]; [exact (Qsvg _ _ H)|].
      apply bind_Raise in H as [H|(can & _ & H)]; [exact (overlay_canvas_raises _ _ _ _ H)|].
      apply bind_Raise in H as [H|(packet & _ & H)]; [exact (Qsave _ _ H)|].
      apply bind_Raise in H as [H|(qr_pdf & Hqr & H)]; [exact (Qparse _ _ _ H)|].
      destruct (Qreader _ _ _ Hqr) as [Qn' Qg'].
      apply bind_Raise in H as [H|(overlay & _ & H)];
        [exact (pages_getitem_raises _ _ Qn' Qg' _ H)|].
      apply bind_Raise in H as [H|(merged & _ & H)]; [exact (Qmerge _ _ _ H)|].
      apply bind_Raise in H as [H|(rest & _ & H)];
        [exact (pages_from_raises _ _ Qn Qg _ H)|discriminate].
    + left. injection H as <-. split; [reflexivity|exact Hv].
  - destruct (validate_pdf_returns L pdf_bytes) as [[|] Hv]; [exact Hv|].
    unfold add_qr_to_pdf_pages in Hpages. rewrite Hv in Hpages. discriminate.
Qed.


(** X6: when no library raises an [HTTPException], the only one that
    [add_qr_to_pdf] raises is the 400 "Invalid or corrupted PDF file", and
    it raises it exactly on the buffers the validator refuses; every other
    failure is a library's error, on a buffer the validator accepts.  The
    400 "PDF file is empty" is never raised. *)
Theorem add_qr_to_pdf_http_errors (Hquiet : quiet L)
    (pdf_bytes : bytes) (qr_content : string) (e : exn) :
  add_qr_to_pdf L pdf_bytes qr_content = Raise e ->
  ((e = HTTPException 400 "Invalid or corrupted PDF file" /\
    validate_pdf L pdf_bytes = Ok false)
   \/
   (library_error e /\ validate_pdf L pdf_bytes = Ok true)) /\
  e <> HTTPException 400 "PDF file is empty".
Proof.
  intros H. pose proof (add_qr_to_pdf_raises Hquiet _ _ _ H) as Hcases.
  split; [exact Hcases|].
  destruct Hcases as [[-> _]|[He _]]; [discriminate|].
  intros ->. exact He.
Qed.

(** X7: a failure of the encoder on an accepted document whose first page
    has a readable media box leaves [add_qr_to_pdf] as the same exception,
    and the endpoint answers it with status 500 and that exception's
    text. *)
Theorem encoder_failure_propagates
    (pdf_bytes : bytes) (qr_content : string)
    (reader : Reader (Page L)) (first : Page L) (w h : float) (e : exn) :
  PdfReader L pdf_bytes (Some false) = Ok reader ->
  pages_getitem reader 0 = Ok first ->
  mediabox_width L first = Ok w ->
  mediabox_height L first = Ok h ->
  generate_qr_code_svg L qr_content = Raise e ->
  add_qr_to_pdf L pdf_bytes qr_content = Raise e /\
  forall pdf_file,
    magic_from_buffer L (fst (upload_read pdf_file (Some 2048%nat))) = Ok "application/pdf" ->
    pdf_bytes_of_upload pdf_file = pdf_bytes ->
    add_qr_to_pdf_endpoint L pdf_file qr_content
      = Raise (HTTPException 500 (exn_str L e)).
Proof.
  intros Hreader Hfirst Hw Hh Hgen.
  assert (Hn : exists n, pages_len reader = Ok (S n)).
  { unfold pages_getitem, pages_len in *.
    destruct (num_pages reader) as [[|n]|e']; try discriminate; eauto. }
  destruct Hn as [n Hn].
  assert (Hv : validate_pdf L pdf_bytes = Ok true).
  { apply validate_pdf_true. exists reader, (S n), first. auto. }
  assert (E : add_qr_to_pdf L pdf_bytes qr_content = Raise e).
  { unfold add_qr_to_pdf, add_qr_to_pdf_pages.
    rewrite Hv. cbn [Py.bind negb]. rewrite Hreader. cbn [Py.bind].
    rewrite Hn. cbn [Py.bind Nat.eqb]. rewrite Hfirst. cbn [Py.bind].
    rewrite Hw, Hh. cbn [Py.bind]. rewrite Hgen. reflexivity. }
  split; [exact E|].
  intros pdf_file Hs <-. rewrite (endpoint_after_sniff L _ _ Hs), E. reflexivity.
Qed.

(** X8: the endpoint fails only with status 500, and exactly in four ways:
    the sniffing raised, the sniffed type is not [application/pdf] (the 400
    raised for it is the exception reported), [add_qr_to_pdf] raised on
    the buffer built from the upload, or the document was stamped and the
    construction of the response raised while encoding the
    [Content-Disposition] header, which carries the upload's file name; the
    detail is the text of the exception in each case. *)
Theorem endpoint_failures (pdf_file : UploadFile) (qr_content : string) (x : exn) :
  add_qr_to_pdf_endpoint L pdf_file qr_content = Raise x <->
  exists e,
    x = HTTPException 500 (exn_str L e) /\
    (magic_from_buffer L (fst (upload_read pdf_file (Some 2048%nat))) = Raise e
     \/
     (exists content_type,
         magic_from_buffer L (fst (upload_read pdf_file (Some 2048%nat)))
           = Ok content_type /\
         content_type <> "application/pdf" /\
         e = HTTPException 400 "Uploaded file is not a PDF")
     \/
     (magic_from_buffer L (fst (upload_read pdf_file (Some 2048%nat)))
        = Ok "application/pdf" /\
      add_qr_to_pdf L (pdf_bytes_of_upload pdf_file) qr_content = Raise e)
     \/
     (magic_from_buffer L (fst (upload_read pdf_file (Some 2048%nat)))
        = Ok "application/pdf" /\
      (exists output,
          add_qr_to_pdf L (pdf_bytes_of_upload pdf_file) qr_content = Ok output) /\
      init_headers L [("Content-Disposition",
                       "attachment; filename=modified_" ++ filename pdf_file)]
        = Raise e)).
Proof.
  destruct (magic_from_buffer L (fst (upload_read pdf_file (Some 2048%nat))))
    as [ct|e0] eqn:Hs.
  - destruct (String.eqb_spec ct "application/pdf") as [->|Hne].
    + rewrite (endpoint_after_sniff L _ qr_content Hs).
      destruct (add_qr_to_pdf L (pdf_bytes_of_upload pdf_file) qr_content) as [out|e1];
        cbn [Py.bind try_except].
      * unfold new_StreamingResponse.
        destruct (init_headers L _) as [[]|e2]; cbn [Py.bind].
        -- split; [discriminate|].
           intros (e & _ & [H|[(ct & H & Hne & _)|[[_ H]|(_ & _ & H)]]]);
             try discriminate.
           injection H as <-. contradiction.
        -- split.
           ++ intros [= <-]. exists e2. split; [reflexivity|].
              right. right. right. eauto.
           ++ intros (e & -> & [H|[(ct & H & Hne & _)|[[_ H]|(_ & _ & H)]]]);
                try discriminate.
              ** injection H as <-. contradiction.
              ** injection H as <-. reflexivity.
      * split.
        -- intros [= <-]. exists e1. split; [reflexivity|].
           right. right. left. split; reflexivity.
        -- intros (e & -> & [H|[(ct & H & Hne & _)|[[_ H]|(_ & [out H] & _)]]]);
             try discriminate.
           ++ injection H as <-. contradiction.
           ++ injection H as <-. reflexivity.
    + assert (E : add_qr_to_pdf_endpoint L pdf_file qr_content
                  = Raise (HTTPException 500
                             (exn_str L (HTTPException 400 "Uploaded file is not a PDF")))).
      { unfold add_qr_to_pdf_endpoint. cbn [upload_read fst] in *. rewrite Hs.
        cbn [Py.bind]. apply String.eqb_neq in Hne. rewrite Hne. reflexivity. }
      rewrite E. split.
      * intros [= <-]. eexists. split; [reflexivity|]. right. left. exists ct. auto.
      * intros (e & -> & [H|[(ct' & H & _ & ->)|[[H _]|(H & _)]]]); try discriminate.
        -- reflexivity.
        -- injection H as E'. contradiction.
        -- injection H as E'. contradiction.
  - assert (E : add_qr_to_pdf_endpoint L pdf_file qr_content
                = Raise (HTTPException 500 (exn_str L e0))).
    { unfold add_qr_to_pdf_endpoint. cbn [upload_read fst] in *. rewrite Hs. reflexivity. }
    rewrite E. split.
    + intros [= <-]. exists e0. auto.
    + intros (e & -> & [H|[(ct' & H & _)|[[H _]|(H & _)]]]); try discriminate.
      injection H as <-. reflexivity.
Qed.

(** X9: the endpoint succeeds exactly when the first chunk is sniffed as a
    PDF, [add_qr_to_pdf] succeeds on the buffer built from the upload, and
    the construction of the response encodes the [Content-Disposition]
    header without raising; the answer then carries that output, the media
    type [application/pdf] and the attachment name [modified_] followed by
    the upload's name. *)
Theorem endpoint_success (pdf_file : UploadFile) (qr_content : string)
    (response : StreamingResponse) :
  add_qr_to_pdf_endpoint L pdf_file qr_content = Ok response <->
  magic_from_buffer L (fst (upload_read pdf_file (Some 2048%nat))) = Ok "application/pdf" /\
  exists output,
    add_qr_to_pdf L (pdf_bytes_of_upload pdf_file) qr_content = Ok output /\
    init_headers L [("Content-Disposition",
                     "attachment; filename=modified_" ++ filename pdf_file)]
      = Ok tt /\
    response = {| body := output;
                  media_type := "application/pdf";
                  headers := [("Content-Disposition",
                               "attachment; filename=modified_" ++ filename pdf_file)] |}.
Proof.
  split.
  - intros H.
    destruct (magic_from_buffer L (fst (upload_read pdf_file (Some 2048%nat))))
      as [ct|e0] eqn:Hs.
    + destruct (String.eqb_spec ct "application/pdf") as [->|Hne].
      * split; [reflexivity|]. rewrite (endpoint_after_sniff L _ qr_content Hs) in H.
        destruct (add_qr_to_pdf L (pdf_bytes_of_upload pdf_file) qr_content) as [out|e1];
          cbn [Py.bind try_except] in H; [|discriminate].
        unfold new_StreamingResponse in H.
        destruct (init_headers L _) as [[]|e2]; cbn [Py.bind try_except] in H;
          [|discriminate].
        injection H as <-. eauto.
      * exfalso. unfold add_qr_to_pdf_endpoint in H. cbn [upload_read fst] in *.
        rewrite Hs in H. cbn [Py.bind] in H. apply String.eqb_neq in Hne.
        rewrite Hne in H. discriminate.
    + exfalso. unfold add_qr_to_pdf_endpoint in H. cbn [upload_read fst] in *.
      rewrite Hs in H. discriminate.
  - intros (Hs & out & Hout & Hh & ->).
    rewrite (endpoint_after_sniff L _ qr_content Hs), Hout. cbn [Py.bind].
    unfold new_StreamingResponse. rewrite Hh. reflexivity.
Qed.

(** X10: an empty upload is never stamped: when the parser rejects the
    empty buffer, the endpoint answers an empty upload with status 500,
    whatever the sniffing says. *)
Theorem empty_upload_answered_with_500 (pdf_file : UploadFile) (qr_content : string) :
  file pdf_file = [] ->
  (exists e, PdfReader L [] (Some false) = Raise e) ->
  status_of (add_qr_to_pdf_endpoint L pdf_file qr_content) = 500%Z.
Proof.
  intros Hfile [e0 Hparse].
  assert (Hbuf : pdf_bytes_of_upload pdf_file = []).
  { rewrite pdf_bytes_of_upload_eq, Hfile. now destruct (position pdf_file). }
  assert (Hv : validate_pdf L [] = Ok false).
  { apply validate_pdf_false. intros reader n p H1. congruence. }
  assert (Hadd : add_qr_to_pdf L [] qr_content
                 = Raise (HTTPException 400 "Invalid or corrupted PDF file")).
  { unfold add_qr_to_pdf, add_qr_to_pdf_pages. rewrite Hv. reflexivity. }
  destruct (magic_from_buffer L (fst (upload_read pdf_file (Some 2048%nat))))
    as [ct|e1] eqn:Hs.
  - destruct (String.eqb_spec ct "application/pdf") as [->|Hne].
    + rewrite (endpoint_after_sniff L _ qr_content Hs), Hbuf, Hadd. reflexivity.
    + unfold add_qr_to_pdf_endpoint. cbn [upload_read fst] in *. rewrite Hs.
      cbn [Py.bind]. apply String.eqb_neq in Hne. rewrite Hne. reflexivity.
  - unfold add_qr_to_pdf_endpoint. cbn [upload_read fst] in *. rewrite Hs. reflexivity.
Qed.

(** X11: a document that [add_qr_to_pdf] stamps was accepted by the
    validator, and the page merged onto its first page is page 0 of the PDF
    saved from the one canvas the function draws: the canvas whose page
    size is the width and height of the first page's media box and which
    carries the drawing parsed from the QR code generated for the payload.
    The written document starts with that merged page. *)
Theorem stamp_uses_first_page_box (pdf_bytes : bytes) (qr_content : string)
    (output : bytes) :
  add_qr_to_pdf L pdf_bytes qr_content = Ok output ->
  validate_pdf L pdf_bytes = Ok true /\
  exists reader first w h qr_svg drawing can packet qr_pdf overlay merged rest,
    PdfReader L pdf_bytes (Some false) = Ok reader /\
    pages_getitem reader 0 = Ok first /\
    mediabox_width L first = Ok w /\
    mediabox_height L first = Ok h /\
    generate_qr_code_svg L qr_content = Ok qr_svg /\
    svg2rlg L qr_svg = Ok drawing /\
    overlay_canvas L drawing w h = Ok can /\
    pagesize can = (w, h) /\
    canvas_save L can = Ok packet /\
    PdfReader L packet None = Ok qr_pdf /\
    pages_getitem qr_pdf 0 = Ok overlay /\
    merge_page L first overlay = Ok merged /\
    PdfWriter_write L (merged :: rest) = Ok output.
Proof.
  unfold add_qr_to_pdf. rewrite try_reraise. intros H.
  apply bind_Ok in H as (pages & Hp & Hout). unfold add_qr_to_pdf_pages in Hp.
  apply bind_Ok in Hp as (valid & Hv & Hp).
  destruct valid; [|discriminate]. cbn [negb] in Hp. split; [exact Hv|].
  apply bind_Ok in Hp as (reader & Hreader & Hp).
  apply bind_Ok in Hp as (n & _ & Hp).
  destruct (n =? 0)%nat; [discriminate|].
  apply bind_Ok in Hp as (first & Hfirst & Hp).
  apply bind_Ok in Hp as (w & Hw & Hp).
  apply bind_Ok in Hp as (h & Hh & Hp).
  apply bind_Ok in Hp as (svg & Hsvg & Hp).
  apply bind_Ok in Hp as (drawing & Hdrawing & Hp).
  apply bind_Ok in Hp as (can & Hcan & Hp).
  apply bind_Ok in Hp as (packet & Hpacket & Hp).
  apply bind_Ok in Hp as (qr_pdf & Hqr & Hp).
  apply bind_Ok in Hp as (overlay & Hoverlay & Hp).
  apply bind_Ok in Hp as (merged & Hmerged & Hp).
  apply bind_Ok in Hp as (rest & _ & Hp).
  injection Hp as <-.
  assert (Hsize : pagesize can = (w, h)).
  { unfold overlay_canvas in Hcan.
    apply bind_Ok in Hcan as (q & _ & Hc). injection Hc as <-. reflexivity. }
  exists reader, first, w, h, svg, drawing, can, packet, qr_pdf, overlay, merged, rest.
  repeat (split; [assumption|]). exact Hout.
Qed.

End PipelineErrors.

Lemma demo_quiet : quiet Demo.libraries.
Proof.
  assert (Hparse : forall stream strict reader,
             Demo.parse stream strict = Py.Ok reader ->
             exists ps, reader = Demo.reader_of ps).
  { intros stream strict reader. unfold Demo.parse.
    destruct (Demo.strip_prefix _ _); [|discriminate].
    destruct (Demo.parse_pages _) as [ps|]; [|discriminate].
    intros [= <-]. eauto. }
  unfold quiet, raises_library_errors. cbn.
  repeat split; try discriminate.
  - intros stream strict e. unfold Demo.parse.
    destruct (Demo.strip_prefix _ _); [|intros [= <-]; exact I].
    destruct (Demo.parse_pages _); [discriminate|intros [= <-]; exact I].
  - destruct (Hparse _ _ _ H) as [ps ->]. discriminate.
  - destruct (Hparse _ _ _ H) as [ps ->]. intros i e. cbn.
    destruct (nth_error ps i); [discriminate|intros [= <-]; exact I].
Qed.

Lemma cramped_quiet : quiet cramped.
Proof. exact demo_quiet. Qed.

(** Four bytes that are no PDF, in the small world. *)
Lemma add_qr_to_pdf_http_errors_witness :
  add_qr_to_pdf Demo.libraries ["J"; "F"; "I"; "F"]%byte "hello"
    = Py.Raise (Py.HTTPException 400 "Invalid or corrupted PDF file") /\
  Py.HTTPException 400 "Invalid or corrupted PDF file"
    <> Py.HTTPException 400 "PDF file is empty".
Proof.
  split; [reflexivity|].
  exact (proj2 (add_qr_to_pdf_http_errors Demo.libraries demo_quiet
                  ["J"; "F"; "I"; "F"]%byte "hello" _ eq_refl)).
Defined.

(** A one-page document and a QR library that holds nothing. *)
Lemma encoder_failure_propagates_witness :
  add_qr_to_pdf cramped (Demo.header ++ ["6"%byte])%list "hello"
    = Py.Raise Py.DataOverflowError.
Proof.
  refine (proj1 (encoder_failure_propagates cramped
                   (Demo.header ++ ["6"%byte])%list "hello"
                   (Demo.reader_of [{| Demo.width := 600; Demo.height := 600;
                                       Demo.content := ["page"%string] |}])
                   _ 600%float 600%float Py.DataOverflowError
                   eq_refl eq_refl eq_refl eq_refl eq_refl)).
Defined.

(** An upload of no byte, in the small world. *)
Lemma empty_upload_answered_with_500_witness :
  status_of
    (add_qr_to_pdf_endpoint Demo.libraries
       {| filename := "empty.pdf"; file := []; position := 0 |} "hello") = 500%Z.
Proof.
  apply (empty_upload_answered_with_500 Demo.libraries
           {| filename := "empty.pdf"; file := []; position := 0 |} "hello" eq_refl).
  eexists. reflexivity.
Defined.

(** A two-page document in the small world. *)
Lemma stamp_uses_first_page_box_witness :
  exists output,
    add_qr_to_pdf Demo.libraries (Demo.header ++ ["6"%byte; "2"%byte])%list "hello"
      = Py.Ok output /\
    validate_pdf Demo.libraries (Demo.header ++ ["6"%byte; "2"%byte])%list = Py.Ok true.
Proof.
  eexists. split; [reflexivity|].
  exact (proj1 (stamp_uses_first_page_box Demo.libraries
                  (Demo.header ++ ["6"%byte; "2"%byte])%list "hello" _ eq_refl)).
Defined.
